(** * Qalkulator: the calculator engine of [script.js]

    A shallow embedding of class [Calculator] (script.js, lines 5-170):
    the four mutable fields, the five operations [clear], [delete],
    [appendNumber], [chooseOperation] and [compute], and the formatter
    [getDisplayNumber].

    The operations lean on built-ins of the language: [parseFloat],
    binary64 arithmetic, [Math.round], [Number.prototype.toString],
    [Number.prototype.toLocaleString] and a few [String] methods.  They are
    modelled first, in module [JS], after ECMA-262; numbers are the
    [spec_float] of the Standard Library at precision 53 and [emax] 1024,
    so that every operation runs on exact integers. *)

From Stdlib Require Import ZArith Lia Bool List Ascii String.
From Stdlib Require Import Floats.SpecFloat.
Import ListNotations.

Local Open Scope string_scope.
Local Open Scope Z_scope.

(* ================================================================== *)
(** * Built-ins of the language *)
(* ================================================================== *)

Module JS.

(** ** Numbers: IEEE 754 binary64 *)

Definition prec : Z := 53.
Definition emax : Z := 1024.

Definition Number : Type := spec_float.

(** An integer literal of the program text, rounded to nearest even. *)
Definition of_Z (z : Z) : Number := binary_normalize prec emax z 0 false.

(** [m * 2^e] rounded to nearest even ([m] of either sign). *)
Definition of_Z_pow2 (m e : Z) : Number := binary_normalize prec emax m e false.

(** [Number.EPSILON] is [2^-52]. *)
Definition EPSILON : Number := of_Z_pow2 1 (-52).

Definition add : Number -> Number -> Number := SFadd prec emax.
Definition sub : Number -> Number -> Number := SFsub prec emax.
Definition mul : Number -> Number -> Number := SFmul prec emax.
Definition div : Number -> Number -> Number := SFdiv prec emax.

(** [isNaN(x)] and [isFinite(x)] on a value that is already a Number. *)
Definition isNaN (x : Number) : bool :=
  match x with S754_nan => true | _ => false end.

Definition isFinite (x : Number) : bool :=
  match x with
  | S754_nan | S754_infinity _ => false
  | _ => true
  end.

(** [x === y] on Numbers: false on NaN, and [+0 === -0]. *)
Definition strict_eq (x y : Number) : bool := SFeqb x y.

(** The integer [z] of a finite number [z * 2^e], out of its sign and its
    mantissa. *)
Definition signed_mantissa (s : bool) (m : positive) : Z :=
  if s then Zneg m else Zpos m.

(** [x % y] (Number::remainder): the sign follows the dividend, the result
    is exact: [n - d * trunc (n / d)]. *)
Definition rem (x y : Number) : Number :=
  match x, y with
  | S754_nan, _ | _, S754_nan => S754_nan
  | S754_infinity _, _ => S754_nan
  | _, S754_infinity _ => x
  | _, S754_zero _ => S754_nan
  | S754_zero _, _ => x
  | S754_finite sx mx ex, S754_finite sy my ey =>
      let ez := Z.min ex ey in
      let nx := Z.shiftl (Zpos mx) (ex - ez) in
      let ny := Z.shiftl (Zpos my) (ey - ez) in
      let r := Z.rem nx ny in
      binary_normalize prec emax (if sx then - r else r) ez sx
  end.

(** [Math.round(x)]: not finite or already integral, [x] itself; in
    [(0, 0.5)] it is [+0], in [[-0.5, 0)] it is [-0]; otherwise the integer
    closest to [x], the one nearer to +infinity in a tie, which is
    [floor (x + 1/2)]. *)
Definition Math_round (x : Number) : Number :=
  match x with
  | S754_finite s m e =>
      if 0 <=? e then x
      else
        let d := Z.shiftl 1 (- e) in
        let r := (2 * signed_mantissa s m + d) / (2 * d) in
        binary_normalize prec emax r 0 s
  | _ => x
  end.

(** ** Decimal numerals *)

Definition is_digit (c : ascii) : bool :=
  let n := nat_of_ascii c in (48 <=? n)%nat && (n <=? 57)%nat.

Definition digit_value (c : ascii) : Z := Z.of_nat (nat_of_ascii c) - 48.

Definition digit_char (d : Z) : ascii := ascii_of_nat (Z.to_nat (48 + d)).

(** The longest run of decimal digits at the head of [s]: its value on top
    of [acc], the number of digits read on top of [cnt], and what follows. *)
Fixpoint scan_digits (s : string) (acc cnt : Z) : Z * Z * string :=
  match s with
  | String c rest =>
      if is_digit c then scan_digits rest (10 * acc + digit_value c) (cnt + 1)
      else (acc, cnt, s)
  | EmptyString => (acc, cnt, s)
  end.

Fixpoint digits_fuel (fuel : nat) (z : Z) (acc : string) : string :=
  match fuel with
  | O => acc
  | S fuel' =>
      let acc' := String (digit_char (z mod 10)) acc in
      if z <? 10 then acc' else digits_fuel fuel' (z / 10) acc'
  end.

(** The decimal numeral of a natural number, no leading zero. *)
Definition Z_to_digits (z : Z) : string :=
  digits_fuel (S (Z.to_nat (Z.log2 z))) z "".

Fixpoint zeros (n : nat) : string :=
  match n with
  | O => ""
  | S n' => String "0" (zeros n')
  end.

(** ** From a decimal numeral to the nearest Number *)

(** [n * 10^e] for a natural [n], rounded to nearest, ties to even: the
    value of a StrDecimalLiteral (ECMA-262, StringNumericValue), computed
    on all of its digits. *)
Definition of_decimal (neg : bool) (n e : Z) : Number :=
  if n =? 0 then S754_zero neg
  else if 0 <=? e then
    binary_normalize prec emax ((if neg then - n else n) * 10 ^ e) 0 neg
  else
    let '(q, e', l) := SFdiv_core_binary prec emax n 0 (10 ^ (- e)) 0 in
    binary_round_aux prec emax neg q e' l.

(** ** parseFloat *)

(** WhiteSpace and LineTerminator code points below 128. *)
Definition is_space (c : ascii) : bool :=
  let n := nat_of_ascii c in
  (n =? 9)%nat || (n =? 10)%nat || (n =? 11)%nat || (n =? 12)%nat
  || (n =? 13)%nat || (n =? 32)%nat.

Fixpoint trim_start (s : string) : string :=
  match s with
  | String c rest => if is_space c then trim_start rest else s
  | EmptyString => s
  end.

(** The optional ExponentPart at the head of [s]: [e] or [E], an optional
    sign and at least one digit; 0 when there is none. *)
Definition scan_exponent (s : string) : Z :=
  match s with
  | String c rest =>
      if (c =? "e")%char || (c =? "E")%char then
        match rest with
        | String sg rest' =>
            if (sg =? "-")%char then
              let '(v, cnt, _) := scan_digits rest' 0 0 in
              if 0 <? cnt then - v else 0
            else if (sg =? "+")%char then
              let '(v, cnt, _) := scan_digits rest' 0 0 in
              if 0 <? cnt then v else 0
            else
              let '(v, _, _) := scan_digits rest 0 0 in v
        | EmptyString => 0
        end
      else 0
  | EmptyString => 0
  end.

(** StrUnsignedDecimalLiteral, longest prefix. *)
Definition parse_unsigned (neg : bool) (s : string) : Number :=
  if prefix "Infinity" s then S754_infinity neg
  else
    let '(ip, icnt, rest) := scan_digits s 0 0 in
    match rest with
    | String "." rest' =>
        let '(fp, fcnt, rest'') := scan_digits rest' ip 0 in
        if (icnt =? 0) && (fcnt =? 0) then S754_nan
        else of_decimal neg fp (scan_exponent rest'' - fcnt)
    | _ =>
        if icnt =? 0 then S754_nan
        else of_decimal neg ip (scan_exponent rest)
    end.

(** [parseFloat(string)]: leading white space is skipped, then the longest
    prefix that is a StrDecimalLiteral is converted; NaN when there is no
    such prefix. *)
Definition parseFloat (input : string) : Number :=
  match trim_start input with
  | String "-" rest => parse_unsigned true rest
  | String "+" rest => parse_unsigned false rest
  | s => parse_unsigned false s
  end.

(** ** Number.prototype.toString (radix 10) *)

(** Structural equality of two Numbers (not [===]). *)
Definition same (x y : Number) : bool :=
  match x, y with
  | S754_zero a, S754_zero b => Bool.eqb a b
  | S754_infinity a, S754_infinity b => Bool.eqb a b
  | S754_nan, S754_nan => true
  | S754_finite a m e, S754_finite b m' e' =>
      Bool.eqb a b && (m =? m')%positive && (e =? e')
  | _, _ => false
  end.

(** The positive rational [m * 2^e / 10^p] as a fraction of naturals. *)
Definition scaled_num (m e p : Z) : Z := m * 2 ^ Z.max e 0 * 10 ^ Z.max (- p) 0.
Definition scaled_den (e p : Z) : Z := 2 ^ Z.max (- e) 0 * 10 ^ Z.max p 0.

(** Is [m * 2^e < 10^n]? *)
Definition below_pow10 (m e n : Z) : bool := scaled_num m e n <? scaled_den e n.

(** The least [n], from [n] on, with [m * 2^e < 10^n]. *)
Fixpoint decimal_exponent (fuel : nat) (m e n : Z) : Z :=
  match fuel with
  | O => n
  | S fuel' =>
      if below_pow10 m e n then n else decimal_exponent fuel' m e (n + 1)
  end.

(** A candidate [s] read at exponent [n]; [10^k] is [10^(k-1)] one place up. *)
Definition carry (k s n : Z) : Z * Z :=
  if s =? 10 ^ k then (s / 10, n + 1) else (s, n).

(** The digits [s] and the exponent [n] of ECMA-262 Number::toString, step 5
    and its note 2: [k] is as small as possible with [s * 10^(n-k)] rounding
    back to [x]; of the two [k]-digit neighbours of [x] the closer one, the
    even one in a tie.  [x] is [m * 2^e], [10^(n0-1) <= x < 10^n0]. *)
Fixpoint shortest (fuel : nat) (k : Z) (x : Number) (m e n0 : Z) : Z * Z :=
  let p := n0 - k in
  let a := scaled_num m e p in
  let b := scaled_den e p in
  let s1 := a / b in
  let s2 := s1 + 1 in
  match fuel with
  | O => (s1, n0)
  | S fuel' =>
      let ok1 := same (of_decimal false s1 p) x in
      let ok2 := same (of_decimal false s2 p) x in
      if ok1 && ok2 then
        match 2 * a ?= (s1 + s2) * b with
        | Lt => (s1, n0)
        | Gt => carry k s2 n0
        | Eq => if Z.even s1 then (s1, n0) else carry k s2 n0
        end
      else if ok1 then (s1, n0)
      else if ok2 then carry k s2 n0
      else shortest fuel' (k + 1) x m e n0
  end.

(** Number::toString, the layout of the digits of [s] at exponent [n]:
    plain up to 21 integer digits and down to 6 leading fraction zeros,
    exponential beyond. *)
Definition format_digits (digits : string) (n : Z) : string :=
  let k := Z.of_nat (String.length digits) in
  if (k <=? n) && (n <=? 21) then
    digits ++ zeros (Z.to_nat (n - k))
  else if (0 <? n) && (n <=? 21) then
    substring 0 (Z.to_nat n) digits ++ "."
      ++ substring (Z.to_nat n) (Z.to_nat (k - n)) digits
  else if (-6 <? n) && (n <=? 0) then
    "0." ++ zeros (Z.to_nat (- n)) ++ digits
  else
    let sign := if n - 1 <? 0 then "-" else "+" in
    if k =? 1 then
      digits ++ "e" ++ sign ++ Z_to_digits (Z.abs (n - 1))
    else
      substring 0 1 digits ++ "." ++ substring 1 (Z.to_nat (k - 1)) digits
        ++ "e" ++ sign ++ Z_to_digits (Z.abs (n - 1)).

Definition Number_toString (x : Number) : string :=
  match x with
  | S754_nan => "NaN"
  | S754_zero _ => "0"
  | S754_infinity s => if s then "-Infinity" else "Infinity"
  | S754_finite s m e =>
      let n0 := decimal_exponent 640 (Zpos m) e (-324) in
      let '(d, n) := shortest 17 1 (S754_finite false m e) (Zpos m) e n0 in
      (if s then "-" else "") ++ format_digits (Z_to_digits d) n
  end.

(** ** Number.prototype.toLocaleString('en', { maximumFractionDigits: 0 }) *)

(** A comma before every group of three digits, counted from the right. *)
Fixpoint group3 (digits : string) : string :=
  match digits with
  | EmptyString => EmptyString
  | String c rest =>
      let n := String.length rest in
      if (0 <? n)%nat && (n mod 3 =? 0)%nat
      then String c (String "," (group3 rest))
      else String c (group3 rest)
  end.

(** The magnitude [m * 2^e] rounded to an integer, halves away from zero
    (ECMA-402, the default rounding mode "halfExpand"). *)
Definition round_half_expand (m : positive) (e : Z) : Z :=
  if 0 <=? e then Z.shiftl (Zpos m) e
  else
    let d := Z.shiftl 1 (- e) in
    (2 * Zpos m + d) / (2 * d).

(** The infinity sign of the locale, U+221E, in UTF-8. *)
Definition infinity_sign : string :=
  String (ascii_of_nat 226) (String (ascii_of_nat 136)
    (String (ascii_of_nat 158) EmptyString)).

(** Decimal style of locale "en": no fraction digits, grouping by three
    with a comma, a minus sign in front of negative values and of [-0]. *)
Definition toLocaleString_en0 (x : Number) : string :=
  match x with
  | S754_nan => "NaN"
  | S754_zero s => (if s then "-" else "") ++ "0"
  | S754_infinity s => (if s then "-" else "") ++ infinity_sign
  | S754_finite s m e =>
      (if s then "-" else "") ++ group3 (Z_to_digits (round_half_expand m e))
  end.

(** ** String methods *)

(** [s.includes(c)] for a search string of one character. *)
Fixpoint includes (c : ascii) (s : string) : bool :=
  match s with
  | EmptyString => false
  | String c' rest => (c' =? c)%char || includes c rest
  end.

(** [s.slice(b, e)]: a negative index counts from the end. *)
Definition slice (s : string) (b e : Z) : string :=
  let len := Z.of_nat (String.length s) in
  let from := if b <? 0 then Z.max (len + b) 0 else Z.min b len in
  let to := if e <? 0 then Z.max (len + e) 0 else Z.min e len in
  substring (Z.to_nat from) (Z.to_nat (Z.max (to - from) 0)) s.

(** [s.split(c)] for a separator of one character: never empty. *)
Fixpoint split (c : ascii) (s : string) : list string :=
  match s with
  | EmptyString => [EmptyString]
  | String c' rest =>
      if (c' =? c)%char then EmptyString :: split c rest
      else
        match split c rest with
        | piece :: pieces => String c' piece :: pieces
        | [] => [String c' EmptyString]
        end
  end.

End JS.

(* ================================================================== *)
(** * class Calculator *)
(* ================================================================== *)

(** The mutable fields of an instance.  [operation] is [None] for
    [undefined]; the two display elements hold no calculator state. *)
Record Calculator : Type := mkCalculator {
  currentOperand : string;
  previousOperand : string;
  operation : option string;
  shouldResetDisplay : bool
}.

(** [this.maxDigits = 12], set once by the constructor. *)
Definition maxDigits : nat := 12.

(** ** Core operations *)

Definition clear (this : Calculator) : Calculator :=
  {| currentOperand := "";
     previousOperand := "";
     operation := None;
     shouldResetDisplay := false |}.

(** The constructor runs [clear] on the fresh object. *)
Definition initial : Calculator := clear (mkCalculator "" "" None false).

Definition delete (this : Calculator) : Calculator :=
  if shouldResetDisplay this then clear this
  else
    {| currentOperand := JS.slice (currentOperand this) 0 (-1);
       previousOperand := previousOperand this;
       operation := operation this;
       shouldResetDisplay := shouldResetDisplay this |}.

(** The first statement of [appendNumber]: a result on display is dropped. *)
Definition resetDisplay (this : Calculator) : Calculator :=
  if shouldResetDisplay this then
    {| currentOperand := "";
       previousOperand := previousOperand this;
       operation := operation this;
       shouldResetDisplay := false |}
  else this.

Definition appendNumber (number : string) (this : Calculator) : Calculator :=
  let this := resetDisplay this in
  if (number =? ".")%string && JS.includes "." (currentOperand this) then this
  else if (maxDigits <=? String.length (currentOperand this))%nat then this
  else
    {| currentOperand := currentOperand this ++ number;
       previousOperand := previousOperand this;
       operation := operation this;
       shouldResetDisplay := shouldResetDisplay this |}.

(** What the [switch] of [compute] leaves behind: a value in [computation],
    a call of [showError] followed by [return], or the [default] return. *)
Inductive Outcome : Type :=
  | Value (computation : JS.Number)
  | Failure (message : string)
  | Ignored.

Definition times_sign : string := "×".
Definition division_sign : string := "÷".

Definition switch_operation (op : option string) (prev current : JS.Number)
  : Outcome :=
  match op with
  | None => Ignored
  | Some o =>
      if (o =? "+")%string then Value (JS.add prev current)
      else if (o =? "-")%string then Value (JS.sub prev current)
      else if (o =? times_sign)%string then Value (JS.mul prev current)
      else if (o =? division_sign)%string then
        if JS.strict_eq current (JS.of_Z 0)
        then Failure "Cannot divide by zero!"
        else Value (JS.div prev current)
      else if (o =? "%")%string then
        if JS.strict_eq current (JS.of_Z 0)
        then Failure "Cannot modulo by zero!"
        else Value (JS.rem prev current)
      else Ignored
  end.

(** [Math.round((computation + Number.EPSILON) * 100000000) / 100000000] *)
Definition round8 (computation : JS.Number) : JS.Number :=
  JS.div
    (JS.Math_round
       (JS.mul (JS.add computation JS.EPSILON) (JS.of_Z 100000000)))
    (JS.of_Z 100000000).

(** [compute] returns the instance as it leaves it, and the message given
    to [showError] when it is called.  [showError] itself touches only the
    display elements and arms a timer whose callback is a later [clear],
    one of the commands below. *)
Definition compute (this : Calculator) : Calculator * option string :=
  let prev := JS.parseFloat (previousOperand this) in
  let current := JS.parseFloat (currentOperand this) in
  if JS.isNaN prev || JS.isNaN current then (this, None)
  else
    match switch_operation (operation this) prev current with
    | Ignored => (this, None)
    | Failure message => (this, Some message)
    | Value computation =>
        if negb (JS.isFinite computation) then (this, Some "Result too large!")
        else
          ({| currentOperand := JS.Number_toString (round8 computation);
              previousOperand := "";
              operation := None;
              shouldResetDisplay := true |}, None)
    end.

Definition chooseOperation (op : string) (this : Calculator)
  : Calculator * option string :=
  if (currentOperand this =? "")%string && (previousOperand this =? "")%string
  then (this, None)
  else if (currentOperand this =? "")%string
          && negb (previousOperand this =? "")%string
  then
    ({| currentOperand := currentOperand this;
        previousOperand := previousOperand this;
        operation := Some op;
        shouldResetDisplay := shouldResetDisplay this |}, None)
  else
    let '(this, shown) :=
      if negb (previousOperand this =? "")%string
         && negb (shouldResetDisplay this)
      then compute this
      else (this, None) in
    ({| currentOperand := "";
        previousOperand := currentOperand this;
        operation := Some op;
        shouldResetDisplay := false |}, shown).

(** ** Utility methods *)

Definition getDisplayNumber (number : string) : string :=
  if (number =? "")%string then ""
  else
    let parts := JS.split "." number in
    let integerPart := hd "" parts in
    let decimalPart := nth_error parts 1 in
    let integerDigits := JS.parseFloat integerPart in
    let integerDisplay :=
      if JS.isNaN integerDigits then ""
      else JS.toLocaleString_en0 integerDigits in
    match decimalPart with
    | Some decimalPart =>
        let limitedDecimal := JS.slice decimalPart 0 8 in
        integerDisplay ++ "." ++ limitedDecimal
    | None => integerDisplay
    end.

(** The texts [updateDisplay] writes: previous operand line, current line. *)
Definition updateDisplay (this : Calculator) : string * string :=
  let displayValue :=
    let shown := getDisplayNumber (currentOperand this) in
    if (shown =? "")%string then "0" else shown in
  match operation this with
  | Some op => (getDisplayNumber (previousOperand this) ++ " " ++ op, displayValue)
  | None => ("", displayValue)
  end.

(** ** The commands of the user interface *)

(** [UIController.handleNumberInput], [handleOperatorInput],
    [handleEqualsInput], [handleClearInput], [handleDeleteInput]. *)
Inductive Command : Type :=
  | NumberInput (number : string)
  | OperatorInput (operator : string)
  | EqualsInput
  | ClearInput
  | DeleteInput.

Definition handle (cmd : Command) (this : Calculator) : Calculator :=
  match cmd with
  | NumberInput number => appendNumber number this
  | OperatorInput operator => fst (chooseOperation operator this)
  | EqualsInput => fst (compute this)
  | ClearInput => clear this
  | DeleteInput => delete this
  end.

(** [KeyboardController.isNumberKey] on a key of one character: a digit or
    the decimal point; the number buttons carry the same texts. *)
Definition isNumberKey (key : string) : bool :=
  match key with
  | String c EmptyString => JS.is_digit c || (c =? ".")%char
  | _ => false
  end.

Definition accepted (cmd : Command) : bool :=
  match cmd with
  | NumberInput number => isNumberKey number
  | _ => true
  end.

Definition run (cmds : list Command) (this : Calculator) : Calculator :=
  fold_left (fun c cmd => handle cmd c) cmds this.

(** The states the interface can bring the calculator to. *)
Inductive reachable : Calculator -> Prop :=
  | reachable_initial : reachable initial
  | reachable_handle (this : Calculator) (cmd : Command) :
      reachable this -> accepted cmd = true -> reachable (handle cmd this).

(* ================================================================== *)
(** * Vocabulary of the statements *)
(* ================================================================== *)

(** How many times [c] occurs in [s]. *)
Fixpoint occurrences (c : ascii) (s : string) : nat :=
  match s with
  | EmptyString => 0%nat
  | String c' rest =>
      ((if (c' =? c)%char then 1 else 0) + occurrences c rest)%nat
  end.

(** Is every character of [s] a decimal digit? *)
Fixpoint all_digits (s : string) : bool :=
  match s with
  | EmptyString => true
  | String c rest => JS.is_digit c && all_digits rest
  end.

(** The natural number a string of digits denotes, read on top of [acc]. *)
Fixpoint decimal_value_from (acc : Z) (s : string) : Z :=
  match s with
  | EmptyString => acc
  | String c rest => decimal_value_from (10 * acc + JS.digit_value c) rest
  end.

Definition decimal_value (s : string) : Z := decimal_value_from 0 s.

(** The integer [z] is the value of the Number [x]. *)
Definition integer_value (x : JS.Number) (z : Z) : Prop :=
  match x with
  | S754_zero _ => z = 0
  | S754_finite s m e =>
      if 0 <=? e then z = JS.signed_mantissa s m * 2 ^ e
      else JS.signed_mantissa s m = z * 2 ^ (- e)
  | _ => False
  end.

(** The rounding the specification words: to the nearest integer, a half
    away from zero. *)
Definition spec_round_half_away (x : JS.Number) : JS.Number :=
  match x with
  | S754_finite s m e =>
      if 0 <=? e then x
      else
        let r := JS.round_half_expand m e in
        binary_normalize JS.prec JS.emax (if s then - r else r) 0 s
  | _ => x
  end.

(** The specification's "multiply by 10^8, round to nearest integer, divide
    back", in binary64 arithmetic. *)
Definition spec_round8 (computation : JS.Number) : JS.Number :=
  JS.div
    (spec_round_half_away (JS.mul computation (JS.of_Z 100000000)))
    (JS.of_Z 100000000).

(** The result of 0.1 + 0.2 is on display: a point in it, the flag raised. *)
Definition after_sum : Calculator :=
  run [NumberInput "0"; NumberInput "."; NumberInput "1"; OperatorInput "+";
       NumberInput "0"; NumberInput "."; NumberInput "2"; EqualsInput] initial.

(** 10000 ÷ 3 = *)
Definition after_quotient : Calculator :=
  run [NumberInput "1"; NumberInput "0"; NumberInput "0"; NumberInput "0";
       NumberInput "0"; OperatorInput division_sign; NumberInput "3";
       EqualsInput] initial.

(** 0 - 4.001953125, whose difference times [10^8] is the half-integer
    -400195312.5, typed but not yet computed. *)
Definition negative_tie : Calculator :=
  run [NumberInput "0"; OperatorInput "-"; NumberInput "4"; NumberInput ".";
       NumberInput "0"; NumberInput "0"; NumberInput "1"; NumberInput "9";
       NumberInput "5"; NumberInput "3"; NumberInput "1"; NumberInput "2";
       NumberInput "5"] initial.

(* ================================================================== *)
(** * Objects used as tables, and letter case *)
(* ================================================================== *)

Module Obj.

(** What reading a property of an object literal can give here: a string
    of its own, [undefined], or something inherited from
    [Object.prototype] (a function, or the prototype itself). *)
Inductive Value : Type :=
  | Str (s : string)
  | Undefined
  | Inherited (name : string).

(** The property names every object literal inherits. *)
Definition Object_prototype : list string :=
  ["constructor"; "hasOwnProperty"; "isPrototypeOf"; "propertyIsEnumerable";
   "toLocaleString"; "toString"; "valueOf"; "__proto__";
   "__defineGetter__"; "__defineSetter__"; "__lookupGetter__";
   "__lookupSetter__"].

Fixpoint own (table : list (string * string)) (key : string) : option string :=
  match table with
  | [] => None
  | (k, v) :: rest => if (k =? key)%string then Some v else own rest key
  end.

(** [table[key]] *)
Definition get (table : list (string * string)) (key : string) : Value :=
  match own table key with
  | Some v => Str v
  | None =>
      if existsb (String.eqb key) Object_prototype then Inherited key
      else Undefined
  end.

(** ToBoolean: the empty string and [undefined] are falsy. *)
Definition truthy (v : Value) : bool :=
  match v with
  | Str s => negb (s =? "")%string
  | Undefined => false
  | Inherited _ => true
  end.

(** [key.toLowerCase()] on the letters A to Z; no other character has a
    lower case among the characters below 128. *)
Definition lower (c : ascii) : ascii :=
  let n := nat_of_ascii c in
  if (65 <=? n)%nat && (n <=? 90)%nat then ascii_of_nat (n + 32) else c.

Fixpoint toLowerCase (s : string) : string :=
  match s with
  | EmptyString => EmptyString
  | String c rest => String (lower c) (toLowerCase rest)
  end.

End Obj.

(* ================================================================== *)
(** * class KeyboardController *)
(* ================================================================== *)

Module KeyboardController.

(** [(key >= '0' && key <= '9') || key === '.'], strings compared
    code unit by code unit. *)
Definition isNumberKey (key : string) : bool :=
  (String.leb "0" key && String.leb key "9") || (key =? ".")%string.

Definition isOperatorKey (key : string) : bool :=
  existsb (String.eqb key) ["+"; "-"; "*"; "/"; "%"].

Definition isEqualsKey (key : string) : bool :=
  (key =? "Enter")%string || (key =? "=")%string.

Definition isClearKey (key : string) : bool :=
  (key =? "Escape")%string || (Obj.toLowerCase key =? "c")%string.

Definition isDeleteKey (key : string) : bool :=
  (key =? "Backspace")%string || (key =? "Delete")%string.

Definition operatorMap : list (string * string) :=
  [("*", times_sign); ("/", division_sign); ("+", "+"); ("-", "-"); ("%", "%")].

(** [operatorMap[key] || key] *)
Definition mapOperatorKey (key : string) : Obj.Value :=
  let mapped := Obj.get operatorMap key in
  if Obj.truthy mapped then mapped else Obj.Str key.

(** The handler [handleKeyPress] calls for [key], if any.  The operator
    handler is reached only under [isOperatorKey], where [mapOperatorKey]
    is always a string, so the other branch of the match is never taken. *)
Definition command (key : string) : option Command :=
  if isNumberKey key then Some (NumberInput key)
  else if isOperatorKey key then
    match mapOperatorKey key with
    | Obj.Str operator => Some (OperatorInput operator)
    | _ => None
    end
  else if isEqualsKey key then Some EqualsInput
  else if isClearKey key then Some ClearInput
  else if isDeleteKey key then Some DeleteInput
  else None.

(** [event.preventDefault()] is called for these keys. *)
Definition preventsDefault (key : string) : bool :=
  (key =? "/")%string || (key =? "Enter")%string.

(** The calculator after [handleKeyPress]. *)
Definition handleKeyPress (key : string) (this : Calculator) : Calculator :=
  match command key with
  | Some cmd => handle cmd this
  | None => this
  end.

Definition handleKeyPresses (keys : list string) (this : Calculator)
  : Calculator :=
  fold_left (fun c key => handleKeyPress key c) keys this.

End KeyboardController.

(* ================================================================== *)
(** * class UIController: feedback for the keyboard *)
(* ================================================================== *)

Module UIController.

Definition backspace_sign : string := "⌫".

Definition keyMap : list (string * string) :=
  [("+", "+"); ("-", "-"); ("*", times_sign); ("/", division_sign); ("%", "%");
   ("Enter", "="); ("=", "=");
   ("Escape", "AC"); ("c", "AC"); ("C", "AC");
   ("Backspace", backspace_sign); ("Delete", backspace_sign)].

(** The content [addKeyboardFeedback] hands to [findButtonByContent];
    [None] when it looks for no button. *)
Definition feedbackContent (key : string) : option Obj.Value :=
  if (String.leb "0" key && String.leb key "9") || (key =? ".")%string
  then Some (Obj.Str key)
  else
    let mappedKey := Obj.get keyMap key in
    if Obj.truthy mappedKey then Some mappedKey else None.

(** [findButtonByContent] over the texts of the [.btn] elements, in
    document order: the first button whose text is [content]. *)
Definition findButtonByContent (buttons : list string) (content : Obj.Value)
  : option string :=
  match content with
  | Obj.Str text => find (String.eqb text) buttons
  | _ => None
  end.

(** The button [addKeyboardFeedback] animates, if any. *)
Definition addKeyboardFeedback (buttons : list string) (key : string)
  : option string :=
  match feedbackContent key with
  | Some content => findButtonByContent buttons content
  | None => None
  end.

End UIController.

(* ================================================================== *)
(** * More vocabulary *)
(* ================================================================== *)

(** The characters of [s], each as a key of its own. *)
Fixpoint keys_of (s : string) : list string :=
  match s with
  | EmptyString => []
  | String c rest => String c EmptyString :: keys_of rest
  end.

(** Is every character of [s] a digit or the decimal point? *)
Fixpoint typed (s : string) : bool :=
  match s with
  | EmptyString => true
  | String c rest => (JS.is_digit c || (c =? ".")%char) && typed rest
  end.

(** The five operators [compute] knows. *)
Definition known_operator (op : string) : bool :=
  existsb (String.eqb op) ["+"; "-"; times_sign; division_sign; "%"].

(** The three messages [compute] hands to [showError]. *)
Definition error_messages : list string :=
  ["Cannot divide by zero!"; "Cannot modulo by zero!"; "Result too large!"].

(** The text of the button that stands for a command. *)
Definition button_text (cmd : Command) : string :=
  match cmd with
  | NumberInput number => number
  | OperatorInput operator => operator
  | EqualsInput => "="
  | ClearInput => "AC"
  | DeleteInput => UIController.backspace_sign
  end.

(** What [chooseOperation] runs before it latches the operator. *)
Definition chained (this : Calculator) : Calculator * option string :=
  if negb (previousOperand this =? "")%string && negb (shouldResetDisplay this)
  then compute this
  else (this, None).

(** The operand [chooseOperation] moves to [previousOperand]. *)
Definition carried (this : Calculator) : string :=
  currentOperand (fst (chained this)).

(** What the induction over the reachable states carries about the two
    operands. *)
Definition operands_ok (this : Calculator) : Prop :=
  (shouldResetDisplay this = false ->
   typed (currentOperand this) = true
   /\ (occurrences "." (currentOperand this) <= 1)%nat)
  /\ (shouldResetDisplay this = true ->
      JS.isNaN (JS.parseFloat (currentOperand this)) = false)
  /\ (previousOperand this = "" \/ previousOperand this = "."
      \/ JS.isNaN (JS.parseFloat (previousOperand this)) = false)
  /\ (operation this = None <-> previousOperand this = "").

(* ================================================================== *)
(** * Facts about the string methods *)
(* ================================================================== *)

Section StringFacts.

Lemma length_app (s t : string) :
  String.length (s ++ t) = (String.length s + String.length t)%nat.
Proof. induction s as [|c s IH]; simpl; [reflexivity | now rewrite IH]. Qed.

Lemma substring_0_length_app (s t : string) :
  substring 0 (String.length s) (s ++ t) = s.
Proof.
  induction s as [|c s IH]; simpl.
  - destruct t; reflexivity.
  - now rewrite IH.
Qed.

Lemma length_substring_le (s : string) (n m : nat) :
  (String.length (substring n m s) <= String.length s)%nat.
Proof.
  revert n m; induction s as [|c s IH]; intros n m.
  - destruct n, m; simpl; lia.
  - destruct n as [|n]; simpl.
    + destruct m as [|m]; simpl; [lia|]. specialize (IH 0%nat m). lia.
    + specialize (IH n m). lia.
Qed.

(** [slice(0, -1)] drops the last character. *)
Lemma slice_drop_last (s : string) (c : ascii) :
  JS.slice (s ++ String c EmptyString) 0 (-1) = s.
Proof.
  unfold JS.slice.
  rewrite length_app. simpl String.length.
  replace (0 <? 0) with false by reflexivity.
  replace (-1 <? 0) with true by reflexivity.
  cbv zeta.
  replace (Z.to_nat (Z.min 0 (Z.of_nat (String.length s + 1)))) with 0%nat by lia.
  replace (Z.to_nat _) with (String.length s) by lia.
  apply substring_0_length_app.
Qed.

Lemma substring_empty (n m : nat) : substring n m "" = "".
Proof. destruct n, m; reflexivity. Qed.

Lemma slice_empty (b e : Z) : JS.slice "" b e = "".
Proof. unfold JS.slice. apply substring_empty. Qed.

Lemma length_slice_le (s : string) (b e : Z) :
  (String.length (JS.slice s b e) <= String.length s)%nat.
Proof. unfold JS.slice. apply length_substring_le. Qed.

Lemma substring_0_all (s : string) (k : nat) :
  (String.length s <= k)%nat -> substring 0 k s = s.
Proof.
  revert k; induction s as [|c s IH]; intros k Hk; simpl.
  - now destruct k.
  - destruct k as [|k]; simpl in Hk; [lia|].
    f_equal. apply IH. lia.
Qed.

(** [slice(0, 8)] keeps the first eight characters. *)
Lemma slice_0_8 (s : string) : JS.slice s 0 8 = substring 0 8 s.
Proof.
  unfold JS.slice.
  replace (0 <? 0) with false by reflexivity.
  replace (8 <? 0) with false by reflexivity.
  set (len := Z.of_nat (String.length s)).
  assert (H0 : Z.min 0 len = 0) by lia.
  rewrite H0, Z.sub_0_r. simpl (Z.to_nat 0).
  destruct (Z.min_spec 8 len) as [[Hlt ->]|[Hle ->]].
  - reflexivity.
  - rewrite Z.max_l by lia. unfold len. rewrite Nat2Z.id.
    rewrite !substring_0_all; [reflexivity | lia | lia].
Qed.

End StringFacts.

(* ================================================================== *)
(** * Counting decimal points *)
(* ================================================================== *)

Section Occurrences.

Variable c : ascii.

Lemma occurrences_app (s t : string) :
  occurrences c (s ++ t) = (occurrences c s + occurrences c t)%nat.
Proof. induction s as [|c' s IH]; simpl; [reflexivity | rewrite IH; lia]. Qed.

Lemma occurrences_substring_le (s : string) (n m : nat) :
  (occurrences c (substring n m s) <= occurrences c s)%nat.
Proof.
  revert n m; induction s as [|c' s IH]; intros n m.
  - now rewrite substring_empty.
  - destruct n as [|n]; simpl.
    + destruct m as [|m]; simpl; [lia|]. specialize (IH 0%nat m). lia.
    + specialize (IH n m). lia.
Qed.

Lemma occurrences_slice_le (s : string) (b e : Z) :
  (occurrences c (JS.slice s b e) <= occurrences c s)%nat.
Proof. unfold JS.slice. apply occurrences_substring_le. Qed.

Lemma includes_false_occurrences (s : string) :
  JS.includes c s = false -> occurrences c s = 0%nat.
Proof.
  induction s as [|c' s IH]; simpl; [reflexivity|].
  destruct (c' =? c)%char; simpl; [discriminate | exact IH].
Qed.

Lemma includes_true_occurrences (s : string) :
  JS.includes c s = true -> (1 <= occurrences c s)%nat.
Proof.
  induction s as [|c' s IH]; simpl; [discriminate|].
  destruct (c' =? c)%char; simpl; [lia | exact IH].
Qed.

End Occurrences.

(* ================================================================== *)
(** * The shape of Number.prototype.toString *)
(* ================================================================== *)

Section ToStringShape.

Lemma digit_char_not_dot (z : Z) : (JS.digit_char (z mod 10) =? ".")%char = false.
Proof.
  assert (H : 0 <= z mod 10 < 10) by (apply Z.mod_pos_bound; lia).
  assert (Hd : z mod 10 = 0 \/ z mod 10 = 1 \/ z mod 10 = 2 \/ z mod 10 = 3
               \/ z mod 10 = 4 \/ z mod 10 = 5 \/ z mod 10 = 6 \/ z mod 10 = 7
               \/ z mod 10 = 8 \/ z mod 10 = 9) by lia.
  repeat (destruct Hd as [-> | Hd]; [reflexivity|]). now rewrite Hd.
Qed.

Lemma digits_fuel_length (fuel : nat) (z : Z) (acc : string) :
  (String.length acc <= String.length (JS.digits_fuel fuel z acc))%nat.
Proof.
  revert z acc; induction fuel as [|fuel IH]; intros z acc; simpl; [lia|].
  destruct (z <? 10); simpl; [lia|].
  etransitivity; [|apply IH]. simpl; lia.
Qed.

Lemma digits_fuel_no_dot (fuel : nat) (z : Z) (acc : string) :
  occurrences "." acc = 0%nat ->
  occurrences "." (JS.digits_fuel fuel z acc) = 0%nat.
Proof.
  revert z acc; induction fuel as [|fuel IH]; intros z acc Hacc; simpl;
    [exact Hacc|].
  assert (Hstep : occurrences "." (String (JS.digit_char (z mod 10)) acc) = 0%nat)
    by (simpl; now rewrite digit_char_not_dot, Hacc).
  destruct (z <? 10); [exact Hstep | now apply IH].
Qed.

Lemma Z_to_digits_nonempty (z : Z) :
  (1 <= String.length (JS.Z_to_digits z))%nat.
Proof.
  unfold JS.Z_to_digits. cbn [JS.digits_fuel].
  destruct (z <? 10); [simpl; lia|].
  etransitivity; [|apply digits_fuel_length]. simpl; lia.
Qed.

Lemma Z_to_digits_no_dot (z : Z) : occurrences "." (JS.Z_to_digits z) = 0%nat.
Proof. unfold JS.Z_to_digits. now apply digits_fuel_no_dot. Qed.

Lemma zeros_no_dot (n : nat) : occurrences "." (JS.zeros n) = 0%nat.
Proof. induction n as [|n IH]; simpl; [reflexivity | exact IH]. Qed.

Lemma format_digits_nonempty (digits : string) (n : Z) :
  (1 <= String.length digits)%nat ->
  (1 <= String.length (JS.format_digits digits n))%nat.
Proof.
  intros Hd. unfold JS.format_digits.
  repeat match goal with
         | |- context [if ?b then _ else _] => destruct b
         end;
    repeat (rewrite length_app; simpl String.length); lia.
Qed.

Lemma format_digits_one_dot (digits : string) (n : Z) :
  occurrences "." digits = 0%nat ->
  (occurrences "." (JS.format_digits digits n) <= 1)%nat.
Proof.
  intros Hd. unfold JS.format_digits.
  pose proof (occurrences_substring_le "." digits) as Hsub.
  pose proof (Hsub 0%nat (Z.to_nat n)) as H1.
  pose proof (Hsub (Z.to_nat n)
                (Z.to_nat (Z.of_nat (String.length digits) - n))) as H2.
  pose proof (Hsub 0%nat 1%nat) as H3.
  pose proof (Hsub 1%nat (Z.to_nat (Z.of_nat (String.length digits) - 1))) as H4.
  pose proof (Z_to_digits_no_dot (Z.abs (n - 1))) as H5.
  repeat match goal with
         | |- context [if ?b then _ else _] => destruct b
         end;
    repeat (rewrite occurrences_app; simpl occurrences);
    rewrite ?zeros_no_dot; lia.
Qed.

(** [toString] never yields the empty string. *)
Lemma Number_toString_nonempty (x : JS.Number) : JS.Number_toString x <> "".
Proof.
  assert (H : (1 <= String.length (JS.Number_toString x))%nat).
  { destruct x as [s|s| |s m e];
      [simpl; lia | destruct s; simpl; lia | simpl; lia |].
    unfold JS.Number_toString.
    destruct (JS.shortest _ _ _ _ _ _) as [d n].
    rewrite length_app.
    pose proof (format_digits_nonempty (JS.Z_to_digits d) n
                  (Z_to_digits_nonempty d)). lia. }
  intros Heq. rewrite Heq in H. simpl in H. lia.
Qed.

(** [toString] yields at most one decimal point. *)
Lemma Number_toString_one_dot (x : JS.Number) :
  (occurrences "." (JS.Number_toString x) <= 1)%nat.
Proof.
  destruct x as [s|s| |s m e];
    [simpl; lia | destruct s; simpl; lia | simpl; lia |].
  unfold JS.Number_toString.
  destruct (JS.shortest _ _ _ _ _ _) as [d n].
  rewrite occurrences_app.
  pose proof (format_digits_one_dot (JS.Z_to_digits d) n (Z_to_digits_no_dot d)).
  destruct s; simpl; lia.
Qed.

End ToStringShape.

(* ================================================================== *)
(** * Integers among the binary64 numbers *)
(* ================================================================== *)

Section Binary64.

Lemma digits2_pos_iter_xO (m p : positive) :
  digits2_pos (Pos.iter xO m p) = (digits2_pos m + p)%positive.
Proof.
  induction p as [|p IH] using Pos.peano_ind.
  - simpl. lia.
  - rewrite Pos.iter_succ. simpl. rewrite IH. lia.
Qed.

Lemma Zpos_iter_xO (m p : positive) :
  Zpos (Pos.iter xO m p) = Zpos m * 2 ^ Zpos p.
Proof.
  induction p as [|p IH] using Pos.peano_ind.
  - simpl. lia.
  - rewrite Pos.iter_succ, Pos2Z.inj_xO, IH, Pos2Z.inj_succ, Z.pow_succ_r by lia.
    lia.
Qed.

Lemma fexp_normal (d : Z) :
  -1021 <= d -> fexp JS.prec JS.emax d = d - 53.
Proof. intros H. unfold fexp, emin, JS.prec, JS.emax. lia. Qed.

Lemma binary_round_aux_exact (s : bool) (m : positive) (e : Z) :
  Zpos (digits2_pos m) = 53 -> -1074 <= e <= 971 ->
  binary_round_aux JS.prec JS.emax s (Zpos m) e loc_Exact = S754_finite s m e.
Proof.
  intros Hd He.
  assert (Hshr : shr_fexp JS.prec JS.emax (Zpos m) e loc_Exact
                 = (Build_shr_record (Zpos m) false false, e)).
  { unfold shr_fexp. cbn [Zdigits2]. rewrite Hd, fexp_normal by lia.
    replace (53 + e - 53 - e) with 0 by lia. reflexivity. }
  unfold binary_round_aux. rewrite Hshr.
  cbn [shr_m loc_of_shr_record round_nearest_even]. rewrite Hshr.
  cbn [shr_m].
  replace (e <=? JS.emax - JS.prec) with true; [reflexivity|].
  symmetry. apply Z.leb_le. unfold JS.emax, JS.prec. lia.
Qed.

(** An integer below [2^53] is a Number: no rounding takes place. *)
Lemma binary_round_exact (s : bool) (m : positive) :
  Zpos (digits2_pos m) <= 53 ->
  exists (m' : positive) (e' : Z),
    binary_round JS.prec JS.emax s m 0 = S754_finite s m' e'
    /\ -52 <= e' <= 0 /\ Zpos m' = Zpos m * 2 ^ (- e').
Proof.
  intros Hd. unfold binary_round.
  rewrite Z.add_0_r, fexp_normal by lia.
  unfold shl_align. rewrite Z.sub_0_r.
  destruct (Zpos (digits2_pos m) - 53) as [|p|p] eqn:Hp; try lia.
  - exists m, 0. split; [|split; [lia | simpl; lia]].
    apply binary_round_aux_exact; lia.
  - exists (Pos.iter xO m p), (Zpos (digits2_pos m) - 53).
    split; [|split].
    + rewrite Hp. apply binary_round_aux_exact; [|lia].
      rewrite digits2_pos_iter_xO. lia.
    + lia.
    + rewrite Zpos_iter_xO. f_equal. f_equal. lia.
Qed.

Lemma digits2_pos_lower (m : positive) :
  2 ^ (Zpos (digits2_pos m) - 1) <= Zpos m.
Proof.
  induction m as [m IH|m IH|]; cbn [digits2_pos].
  - rewrite Pos2Z.inj_succ.
    replace (Z.succ (Zpos (digits2_pos m)) - 1)
      with (Z.succ (Zpos (digits2_pos m) - 1)) by lia.
    rewrite Z.pow_succ_r by lia. lia.
  - rewrite Pos2Z.inj_succ.
    replace (Z.succ (Zpos (digits2_pos m)) - 1)
      with (Z.succ (Zpos (digits2_pos m) - 1)) by lia.
    rewrite Z.pow_succ_r by lia. lia.
  - simpl. lia.
Qed.

Lemma digits2_pos_53 (m : positive) :
  Zpos m < 2 ^ 53 -> Zpos (digits2_pos m) <= 53.
Proof.
  intros Hm. pose proof (digits2_pos_lower m) as Hlow.
  destruct (Z_le_gt_dec (Zpos (digits2_pos m)) 53) as [Hle|Hgt]; [exact Hle|].
  assert (2 ^ 53 <= 2 ^ (Zpos (digits2_pos m) - 1))
    by (apply Z.pow_le_mono_r; lia).
  lia.
Qed.

(** The Number of an integer of magnitude below [2^53] has that value. *)
Lemma binary_normalize_integer (z : Z) (s : bool) :
  Z.abs z < 2 ^ 53 ->
  integer_value (binary_normalize JS.prec JS.emax z 0 s) z.
Proof.
  intros Hz. destruct z as [|m|m]; cbn [binary_normalize].
  - reflexivity.
  - destruct (binary_round_exact false m) as (m' & e' & -> & He' & Hm');
      [apply digits2_pos_53; lia|].
    cbn [integer_value JS.signed_mantissa].
    destruct (Z.leb_spec 0 e'); [|exact Hm'].
    replace e' with 0 in * by lia. simpl in Hm'. lia.
  - destruct (binary_round_exact true m) as (m' & e' & -> & He' & Hm');
      [apply digits2_pos_53; lia|].
    cbn [integer_value JS.signed_mantissa].
    destruct (Z.leb_spec 0 e').
    + replace e' with 0 in * by lia. simpl in Hm'. lia.
    + change (Zneg m') with (- Zpos m'). rewrite Hm'.
      change (Zneg m) with (- Zpos m). lia.
Qed.

(** [Math.round] on a number with a fraction part: the nearest integer
    [r], and in a tie the one above ([r - x = 1/2], never [x - r = 1/2]). *)
Lemma Math_round_nearest_ties_up (s : bool) (m : positive) (e : Z) :
  e < 0 -> Zpos m < 2 ^ 53 ->
  exists r : Z,
    integer_value (JS.Math_round (S754_finite s m e)) r
    /\ - 2 ^ (- e) < 2 * (r * 2 ^ (- e) - JS.signed_mantissa s m) <= 2 ^ (- e).
Proof.
  intros He Hm. unfold JS.Math_round.
  destruct (Z.leb_spec 0 e) as [Hge|_]; [lia|].
  rewrite Z.shiftl_1_l.
  set (d := 2 ^ (- e)). set (z := JS.signed_mantissa s m).
  assert (Hd : 2 <= d).
  { unfold d. change 2 with (2 ^ 1) at 1. apply Z.pow_le_mono_r; lia. }
  assert (Hz : Z.abs z < 2 ^ 53) by (unfold z; destruct s; simpl; lia).
  pose proof (Z.div_mod (2 * z + d) (2 * d) ltac:(lia)) as Hdiv.
  pose proof (Z.mod_pos_bound (2 * z + d) (2 * d) ltac:(lia)) as Hmod.
  set (r := (2 * z + d) / (2 * d)) in *.
  exists r. split.
  - apply binary_normalize_integer. nia.
  - nia.
Qed.

End Binary64.

(* ================================================================== *)
(** * Strings of digits *)
(* ================================================================== *)

Section Numerals.

Lemma is_digit_cases (c : ascii) :
  JS.is_digit c = true ->
  In c ["0"; "1"; "2"; "3"; "4"; "5"; "6"; "7"; "8"; "9"]%char.
Proof.
  destruct c as [[] [] [] [] [] [] [] []]; intros H;
    try (exfalso; vm_compute in H; discriminate H); simpl; tauto.
Qed.

Ltac digit_cases c H :=
  let Hin := fresh in
  pose proof (is_digit_cases c H) as Hin; simpl in Hin;
  repeat (destruct Hin as [<- | Hin]); [..| contradiction].

Lemma is_digit_not_dot (c : ascii) :
  JS.is_digit c = true -> (c =? ".")%char = false.
Proof. intros H. digit_cases c H; reflexivity. Qed.

Lemma digit_value_bounds (c : ascii) :
  JS.is_digit c = true -> 0 <= JS.digit_value c <= 9.
Proof. intros H. digit_cases c H; vm_compute; split; discriminate. Qed.

Lemma parseFloat_digit_head (c : ascii) (rest : string) :
  JS.is_digit c = true ->
  JS.parseFloat (String c rest) = JS.parse_unsigned false (String c rest).
Proof. intros H. digit_cases c H; reflexivity. Qed.

Lemma prefix_Infinity_digit_head (c : ascii) (rest : string) :
  JS.is_digit c = true -> prefix "Infinity" (String c rest) = false.
Proof. intros H. digit_cases c H; reflexivity. Qed.

Lemma all_digits_no_dot (s : string) :
  all_digits s = true -> JS.includes "." s = false.
Proof.
  induction s as [|c s IH]; simpl; [reflexivity|].
  intros H. apply andb_prop in H as [Hc Hs].
  now rewrite (is_digit_not_dot c Hc), IH.
Qed.

Lemma scan_digits_all_digits (s : string) (acc cnt : Z) :
  all_digits s = true ->
  JS.scan_digits s acc cnt
  = (decimal_value_from acc s, cnt + Z.of_nat (String.length s), "").
Proof.
  revert acc cnt; induction s as [|c s IH]; intros acc cnt H;
    cbn [JS.scan_digits decimal_value_from].
  - simpl. now rewrite Z.add_0_r.
  - simpl in H. apply andb_prop in H as [Hc Hs].
    change (String.length (String c s)) with (S (String.length s)).
    rewrite Hc, IH, Nat2Z.inj_succ by exact Hs. do 2 f_equal. lia.
Qed.

Lemma decimal_value_from_nonneg (s : string) (acc : Z) :
  all_digits s = true -> 0 <= acc -> 0 <= decimal_value_from acc s.
Proof.
  revert acc; induction s as [|c s IH]; intros acc H Hacc;
    cbn [decimal_value_from]; [exact Hacc|].
  simpl in H. apply andb_prop in H as [Hc Hs].
  apply IH; [exact Hs|]. pose proof (digit_value_bounds c Hc). lia.
Qed.

(** [parseFloat] of a string of digits, with or without a minus sign in
    front, is the Number nearest to its value. *)
Lemma parse_unsigned_all_digits (neg : bool) (s : string) :
  s <> "" -> all_digits s = true ->
  JS.parse_unsigned neg s = JS.of_decimal neg (decimal_value s) 0.
Proof.
  intros Hne H. destruct s as [|c s]; [contradiction|].
  pose proof H as H'. simpl in H'. apply andb_prop in H' as [Hc Hs].
  unfold JS.parse_unsigned.
  rewrite prefix_Infinity_digit_head by exact Hc.
  rewrite scan_digits_all_digits by exact H.
  replace (0 + Z.of_nat (String.length (String c s)) =? 0) with false.
  - reflexivity.
  - symmetry. apply Z.eqb_neq.
    change (String.length (String c s)) with (S (String.length s)). lia.
Qed.

Lemma parseFloat_all_digits (s : string) :
  s <> "" -> all_digits s = true ->
  JS.parseFloat s = JS.of_decimal false (decimal_value s) 0.
Proof.
  intros Hne H. destruct s as [|c s]; [contradiction|].
  pose proof H as H'. simpl in H'. apply andb_prop in H' as [Hc Hs].
  rewrite parseFloat_digit_head by exact Hc.
  now apply parse_unsigned_all_digits.
Qed.

Lemma parseFloat_minus_all_digits (s : string) :
  s <> "" -> all_digits s = true ->
  JS.parseFloat (String "-" s) = JS.of_decimal true (decimal_value s) 0.
Proof.
  intros Hne H.
  change (JS.parseFloat (String "-" s)) with (JS.parse_unsigned true s).
  now apply parse_unsigned_all_digits.
Qed.

Lemma round_half_expand_integer (m : positive) (e v : Z) :
  e <= 0 -> Zpos m = v * 2 ^ (- e) -> JS.round_half_expand m e = v.
Proof.
  intros He Hm. unfold JS.round_half_expand.
  destruct (Z.leb_spec 0 e) as [Hge|Hlt].
  - replace e with 0 in * by lia. rewrite Z.shiftl_0_r. simpl in Hm. lia.
  - rewrite Z.shiftl_1_l. rewrite Hm.
    assert (Hd : 0 < 2 ^ (- e)) by (apply Z.pow_pos_nonneg; lia).
    symmetry. apply Z.div_unique with (r := 2 ^ (- e)); lia.
Qed.

(** The locale string of an integer of magnitude below [2^53]: a minus
    sign when negative, then the decimal numeral of the magnitude, grouped. *)
Lemma toLocaleString_en0_integer (neg : bool) (v : Z) :
  0 <= v < 2 ^ 53 ->
  JS.isNaN (JS.of_decimal neg v 0) = false
  /\ JS.toLocaleString_en0 (JS.of_decimal neg v 0)
     = (if neg then "-" else "") ++ JS.group3 (JS.Z_to_digits v).
Proof.
  intros Hv. unfold JS.of_decimal.
  destruct (Z.eqb_spec v 0) as [->|Hnz]; [split; reflexivity|].
  cbn [Z.leb Z.compare]. rewrite Z.pow_0_r, Z.mul_1_r.
  destruct v as [|m|m]; try lia.
  destruct neg; cbn [Z.opp binary_normalize].
  - destruct (binary_round_exact true m) as (m' & e' & -> & He' & Hm');
      [apply digits2_pos_53; lia|].
    split; [reflexivity|]. cbn [JS.toLocaleString_en0].
    now rewrite (round_half_expand_integer m' e' (Zpos m)) by lia.
  - destruct (binary_round_exact false m) as (m' & e' & -> & He' & Hm');
      [apply digits2_pos_53; lia|].
    split; [reflexivity|]. cbn [JS.toLocaleString_en0].
    now rewrite (round_half_expand_integer m' e' (Zpos m)) by lia.
Qed.

Lemma split_no_separator (c : ascii) (s : string) :
  JS.includes c s = false -> JS.split c s = [s].
Proof.
  induction s as [|c' s IH]; simpl; [reflexivity|].
  destruct (c' =? c)%char; [discriminate|]. simpl.
  intros H. now rewrite IH.
Qed.

Lemma split_at_first (c : ascii) (s t : string) :
  JS.includes c s = false ->
  JS.split c (s ++ String c t) = s :: JS.split c t.
Proof.
  induction s as [|c' s IH]; simpl.
  - now rewrite Ascii.eqb_refl.
  - destruct (c' =? c)%char; [discriminate|]. simpl.
    intros H. now rewrite IH.
Qed.

Lemma app_point_nonempty (s t : string) : (s ++ "." ++ t =? "")%string = false.
Proof. destruct s; reflexivity. Qed.

End Numerals.

(* ================================================================== *)
(** * Printing a natural number and reading it back *)
(* ================================================================== *)

Section RoundTrip.

Lemma app_assoc (s t u : string) : (s ++ t) ++ u = s ++ (t ++ u).
Proof. induction s as [|c s IH]; simpl; [reflexivity | now rewrite IH]. Qed.

Lemma digit_char_spec (d : Z) :
  0 <= d < 10 ->
  JS.is_digit (JS.digit_char d) = true /\ JS.digit_value (JS.digit_char d) = d.
Proof.
  intros H.
  assert (Hd : d = 0 \/ d = 1 \/ d = 2 \/ d = 3 \/ d = 4 \/ d = 5 \/ d = 6
               \/ d = 7 \/ d = 8 \/ d = 9) by lia.
  repeat (destruct Hd as [-> | Hd]; [split; reflexivity|]).
  subst d. split; reflexivity.
Qed.

Lemma digits_fuel_acc (fuel : nat) (z : Z) (acc : string) :
  JS.digits_fuel fuel z acc = JS.digits_fuel fuel z "" ++ acc.
Proof.
  revert z acc; induction fuel as [|fuel IH]; intros z acc;
    cbn [JS.digits_fuel]; [reflexivity|].
  destruct (z <? 10); [reflexivity|].
  rewrite IH, (IH _ (String _ "")), app_assoc. reflexivity.
Qed.

Lemma decimal_value_from_app (s t : string) (acc : Z) :
  decimal_value_from acc (s ++ t) = decimal_value_from (decimal_value_from acc s) t.
Proof.
  revert acc; induction s as [|c s IH]; intros acc; cbn [append decimal_value_from];
    [reflexivity | apply IH].
Qed.

Lemma all_digits_app (s t : string) :
  all_digits (s ++ t) = all_digits s && all_digits t.
Proof.
  induction s as [|c s IH]; cbn [append all_digits]; [reflexivity|].
  now rewrite IH, andb_assoc.
Qed.

Lemma digits_fuel_all_digits (fuel : nat) (z : Z) :
  all_digits (JS.digits_fuel fuel z "") = true.
Proof.
  revert z; induction fuel as [|fuel IH]; intros z; cbn [JS.digits_fuel];
    [reflexivity|].
  assert (Hc : JS.is_digit (JS.digit_char (z mod 10)) = true)
    by (apply digit_char_spec, Z.mod_pos_bound; lia).
  destruct (z <? 10).
  - cbn [all_digits]. now rewrite Hc.
  - rewrite digits_fuel_acc, all_digits_app, IH. cbn [all_digits].
    now rewrite Hc.
Qed.

Lemma digits_fuel_value (fuel : nat) (z : Z) :
  0 <= z < 2 ^ Z.of_nat fuel ->
  decimal_value (JS.digits_fuel fuel z "") = z.
Proof.
  unfold decimal_value.
  revert z; induction fuel as [|fuel IH]; intros z Hz; cbn [JS.digits_fuel].
  - simpl in Hz. cbn [decimal_value_from]. lia.
  - rewrite Nat2Z.inj_succ, Z.pow_succ_r in Hz by lia.
    assert (Hmod : 0 <= z mod 10 < 10) by (apply Z.mod_pos_bound; lia).
    destruct (digit_char_spec (z mod 10) Hmod) as [_ Hv].
    destruct (Z.ltb_spec z 10) as [Hlt|Hge].
    + cbn [decimal_value_from]. rewrite Hv, Z.mod_small; lia.
    + rewrite digits_fuel_acc, decimal_value_from_app, IH.
      * cbn [decimal_value_from]. rewrite Hv.
        pose proof (Z.div_mod z 10 ltac:(lia)). lia.
      * split; [apply Z.div_pos; lia|].
        apply Z.div_lt_upper_bound; lia.
Qed.

(** Reading the numeral of a natural number gives the number back. *)
Lemma Z_to_digits_value (z : Z) :
  0 <= z ->
  JS.Z_to_digits z <> ""
  /\ all_digits (JS.Z_to_digits z) = true
  /\ decimal_value (JS.Z_to_digits z) = z.
Proof.
  intros Hz. split; [|split].
  - intros Heq. pose proof (Z_to_digits_nonempty z) as Hlen.
    rewrite Heq in Hlen. simpl in Hlen. lia.
  - apply digits_fuel_all_digits.
  - apply digits_fuel_value.
    rewrite Nat2Z.inj_succ, Z2Nat.id by apply Z.log2_nonneg.
    destruct (Z.eq_dec z 0) as [->|Hnz]; [simpl; lia|].
    split; [exact Hz|]. apply Z.log2_spec. lia.
Qed.

End RoundTrip.

(* ================================================================== *)
(** * The operations on given states *)
(* ================================================================== *)

(** C1. Chained calculation: from the initial state, [appendNumber('3')],
    [chooseOperation('+')], [appendNumber('4')] leave "3 + 4" pending; on
    that state [compute] yields 7, and [chooseOperation('×')] runs it
    before it latches the new operator: [previousOperand] is "7",
    [operation] is '×' and [currentOperand] is empty. *)
Theorem chooseOperation_chains :
  let pending :=
    run [NumberInput "3"; OperatorInput "+"; NumberInput "4"] initial in
  pending = mkCalculator "4" "3" (Some "+") false
  /\ compute pending = (mkCalculator "7" "" None true, None)
  /\ chooseOperation times_sign pending
     = (mkCalculator "" "7" (Some times_sign) false, None)
  /\ run [NumberInput "3"; OperatorInput "+"; NumberInput "4";
          OperatorInput times_sign] initial
     = mkCalculator "" "7" (Some times_sign) false.
Proof.
  cbv zeta. split; [|split; [|split]]; vm_compute; reflexivity.
Qed.

(** C2. With "10" pending, the division sign and "0" typed, [compute]
    reports the division by zero and returns the instance as it was,
    whatever the reset flag; more generally any division, and any modulo,
    whose divisor parses to zero and whose dividend parses to a number is
    reported and changes no field. *)
Theorem compute_zero_divisor :
  (forall flag : bool,
     compute (mkCalculator "0" "10" (Some division_sign) flag)
     = (mkCalculator "0" "10" (Some division_sign) flag,
        Some "Cannot divide by zero!"))
  /\ (forall this : Calculator,
        operation this = Some division_sign ->
        JS.isNaN (JS.parseFloat (previousOperand this)) = false ->
        JS.strict_eq (JS.parseFloat (currentOperand this)) (JS.of_Z 0) = true ->
        compute this = (this, Some "Cannot divide by zero!"))
  /\ (forall this : Calculator,
        operation this = Some "%" ->
        JS.isNaN (JS.parseFloat (previousOperand this)) = false ->
        JS.strict_eq (JS.parseFloat (currentOperand this)) (JS.of_Z 0) = true ->
        compute this = (this, Some "Cannot modulo by zero!")).
Proof.
  assert (Hnan : forall x, JS.strict_eq x (JS.of_Z 0) = true -> JS.isNaN x = false)
    by (now intros [ | | | ]).
  split; [|split].
  - intros flag. vm_compute. reflexivity.
  - intros this Hop Hprev Hcur. unfold compute.
    rewrite Hprev, (Hnan _ Hcur), Hop. cbn [orb].
    unfold switch_operation.
    replace (division_sign =? "+")%string with false by reflexivity.
    replace (division_sign =? "-")%string with false by reflexivity.
    replace (division_sign =? times_sign)%string with false by reflexivity.
    rewrite String.eqb_refl, Hcur. reflexivity.
  - intros this Hop Hprev Hcur. unfold compute.
    rewrite Hprev, (Hnan _ Hcur), Hop. cbn [orb].
    unfold switch_operation.
    replace ("%" =? "+")%string with false by reflexivity.
    replace ("%" =? "-")%string with false by reflexivity.
    replace ("%" =? times_sign)%string with false by reflexivity.
    replace ("%" =? division_sign)%string with false by reflexivity.
    rewrite String.eqb_refl, Hcur. reflexivity.
Qed.

Lemma compute_zero_divisor_witness :
  compute (mkCalculator "0.0" "7" (Some division_sign) true)
  = (mkCalculator "0.0" "7" (Some division_sign) true,
     Some "Cannot divide by zero!")
  /\ compute (mkCalculator "0" "10" (Some "%") false)
     = (mkCalculator "0" "10" (Some "%") false, Some "Cannot modulo by zero!").
Proof.
  split.
  - apply (proj1 (proj2 compute_zero_divisor)); reflexivity.
  - apply (proj2 (proj2 compute_zero_divisor)); reflexivity.
Defined.

(** C4. With "3" pending, '+' and "4" typed, [compute] stores "7" in
    [currentOperand], empties [previousOperand], clears [operation] and
    raises [shouldResetDisplay]; nothing is reported. *)
Theorem compute_three_plus_four (flag : bool) :
  compute (mkCalculator "4" "3" (Some "+") flag)
  = (mkCalculator "7" "" None true, None).
Proof. vm_compute. reflexivity. Qed.

(** C7. [delete] is [clear] when [shouldResetDisplay] is set; otherwise
    it drops the last character of [currentOperand] and leaves the other
    three fields alone, and it changes nothing when [currentOperand] is
    already empty. *)
Theorem delete_spec :
  (forall this : Calculator,
     shouldResetDisplay this = true -> delete this = clear this)
  /\ (forall (this : Calculator) (s : string) (c : ascii),
        shouldResetDisplay this = false ->
        currentOperand this = s ++ String c EmptyString ->
        delete this
        = mkCalculator s (previousOperand this) (operation this) false)
  /\ (forall this : Calculator,
        shouldResetDisplay this = false ->
        currentOperand this = "" ->
        delete this = this).
Proof.
  split; [|split].
  - intros this Hflag. unfold delete. now rewrite Hflag.
  - intros this s c Hflag Hcur. unfold delete.
    now rewrite Hflag, Hcur, slice_drop_last.
  - intros [cur prev op flag] Hflag Hcur. simpl in *. subst.
    unfold delete. simpl. now rewrite slice_empty.
Qed.

Lemma delete_spec_witness :
  delete (mkCalculator "7" "" None true) = clear (mkCalculator "7" "" None true)
  /\ delete (mkCalculator "12.5" "3" (Some "+") false)
     = mkCalculator "12." "3" (Some "+") false
  /\ delete (mkCalculator "" "3" (Some "+") false)
     = mkCalculator "" "3" (Some "+") false.
Proof.
  split; [|split].
  - apply (proj1 delete_spec). reflexivity.
  - apply (proj1 (proj2 delete_spec) (mkCalculator "12.5" "3" (Some "+") false)
             "12." "5"%char); reflexivity.
  - apply (proj2 (proj2 delete_spec)); reflexivity.
Defined.

(** C8. When [currentOperand] is empty and [previousOperand] is not,
    [chooseOperation(op)] only replaces the pending operation: the operands
    and the reset flag stay, [compute] does not run and nothing is
    reported. *)
Theorem chooseOperation_replaces_operator (this : Calculator) (op : string) :
  currentOperand this = "" ->
  previousOperand this <> "" ->
  chooseOperation op this
  = (mkCalculator (currentOperand this) (previousOperand this) (Some op)
       (shouldResetDisplay this), None).
Proof.
  intros Hcur Hprev. unfold chooseOperation.
  rewrite Hcur. apply String.eqb_neq in Hprev. rewrite Hprev. reflexivity.
Qed.

Lemma chooseOperation_replaces_operator_witness :
  chooseOperation "-" (mkCalculator "" "3" (Some "+") false)
  = (mkCalculator "" "3" (Some "-") false, None).
Proof.
  apply (chooseOperation_replaces_operator
           (mkCalculator "" "3" (Some "+") false) "-").
  - reflexivity.
  - discriminate.
Defined.

(* ================================================================== *)
(** * What every operation preserves *)
(* ================================================================== *)

Section Steps.

(** [compute] either returns early, all fields as they were, or stores the
    string of a Number with the reset flag raised. *)
Lemma compute_cases (this : Calculator) :
  fst (compute this) = this
  \/ exists x : JS.Number,
       fst (compute this) = mkCalculator (JS.Number_toString x) "" None true.
Proof.
  unfold compute.
  destruct (JS.isNaN _ || JS.isNaN _); [now left|].
  destruct (switch_operation _ _ _) as [computation|message|]; try now left.
  destruct (negb (JS.isFinite computation)); [now left|].
  right. now exists (round8 computation).
Qed.

Lemma resetDisplay_flag (this : Calculator) :
  shouldResetDisplay (resetDisplay this) = false.
Proof.
  unfold resetDisplay.
  destruct (shouldResetDisplay this) eqn:Hflag; [reflexivity | exact Hflag].
Qed.

Lemma appendNumber_flag (number : string) (this : Calculator) :
  shouldResetDisplay (appendNumber number this) = false.
Proof.
  unfold appendNumber.
  pose proof (resetDisplay_flag this) as Hflag.
  destruct (_ && _); [exact Hflag|].
  destruct (_ <=? _)%nat; [exact Hflag | exact Hflag].
Qed.

(** The three ways out of [chooseOperation]. *)
Lemma chooseOperation_cases (op : string) (this : Calculator) :
  fst (chooseOperation op this) = this
  \/ (currentOperand this = ""
      /\ fst (chooseOperation op this)
         = mkCalculator "" (previousOperand this) (Some op)
             (shouldResetDisplay this)
      /\ previousOperand this <> "")
  \/ exists prev : string,
       fst (chooseOperation op this) = mkCalculator "" prev (Some op) false.
Proof.
  unfold chooseOperation.
  destruct (String.eqb_spec (currentOperand this) "") as [Hcur|Hcur];
    destruct (String.eqb_spec (previousOperand this) "") as [Hprev|Hprev];
    cbn [andb negb].
  - now left.
  - right; left. rewrite Hcur. now repeat split.
  - right; right. now eexists.
  - right; right.
    destruct (negb (shouldResetDisplay this)).
    + destruct (compute this) as [this' shown]. now eexists.
    + now eexists.
Qed.

(** A key accepted as a number is one character long and, unless it is the
    point itself, holds no point. *)
Lemma isNumberKey_length (key : string) :
  isNumberKey key = true -> String.length key = 1%nat.
Proof. destruct key as [|c [|c' key]]; simpl; now try discriminate. Qed.

Lemma isNumberKey_no_dot (key : string) :
  isNumberKey key = true -> (key =? ".")%string = false ->
  occurrences "." key = 0%nat.
Proof.
  destruct key as [|c [|c' key]]; simpl; try discriminate.
  intros _. destruct (c =? ".")%char; [discriminate | reflexivity].
Qed.

Lemma run_app (cmds cmds' : list Command) (this : Calculator) :
  run (cmds ++ cmds') this = run cmds' (run cmds this).
Proof. unfold run. apply fold_left_app. Qed.

Lemma run_reachable (cmds : list Command) (this : Calculator) :
  reachable this -> forallb accepted cmds = true -> reachable (run cmds this).
Proof.
  revert this; induction cmds as [|cmd cmds IH]; intros this Hthis Hok.
  - exact Hthis.
  - simpl in Hok. apply andb_prop in Hok as [Hcmd Hcmds].
    apply IH; [|exact Hcmds]. now apply reachable_handle.
Qed.

End Steps.

(* ================================================================== *)
(** * Invariants of the reachable states *)
(* ================================================================== *)

(** C10. In every state the interface can reach, a raised
    [shouldResetDisplay] comes with an empty [previousOperand], no
    [operation] and a [currentOperand] that is not empty. *)
Theorem reset_flag_means_result (this : Calculator) :
  reachable this ->
  shouldResetDisplay this = true ->
  previousOperand this = "" /\ operation this = None /\ currentOperand this <> "".
Proof.
  induction 1 as [|this cmd Hreach IH Hcmd].
  - discriminate.
  - destruct cmd as [number|operator| | |]; cbn [handle].
    + rewrite appendNumber_flag. discriminate.
    + destruct (chooseOperation_cases operator this)
        as [-> | [(_ & -> & Hprev) | [prev ->]]]; cbn.
      * exact IH.
      * intros Hflag. now destruct (IH Hflag) as (Hempty & _).
      * discriminate.
    + destruct (compute_cases this) as [-> | [x ->]]; cbn.
      * exact IH.
      * intros _. repeat split. apply Number_toString_nonempty.
    + discriminate.
    + unfold delete. destruct (shouldResetDisplay this); cbn; discriminate.
Qed.

Lemma reset_flag_means_result_witness :
  let this := run [NumberInput "3"; OperatorInput "+"; NumberInput "4";
                   EqualsInput] initial in
  previousOperand this = "" /\ operation this = None /\ currentOperand this <> "".
Proof.
  apply reset_flag_means_result.
  - apply run_reachable; [constructor | reflexivity].
  - vm_compute. reflexivity.
Defined.

(** C6, as stated, fails: with the result "0.3" on display, which holds
    a point, [appendNumber('.')] is not a no-op; it starts the operand ".". *)
Lemma appendNumber_point_after_result :
  reachable after_sum
  /\ JS.includes "." (currentOperand after_sum) = true
  /\ appendNumber "." after_sum = mkCalculator "." "" None false
  /\ appendNumber "." after_sum <> after_sum.
Proof.
  split; [|split; [|split]].
  - apply run_reachable; [constructor | reflexivity].
  - vm_compute. reflexivity.
  - vm_compute. reflexivity.
  - vm_compute. discriminate.
Qed.

Lemma includes_app_point (s : string) : JS.includes "." (s ++ ".") = true.
Proof.
  induction s as [|c s IH]; simpl; [reflexivity|].
  rewrite IH. apply orb_true_r.
Qed.

Lemma appendNumber_point_twice (this : Calculator) :
  appendNumber "." (appendNumber "." this) = appendNumber "." this.
Proof.
  unfold appendNumber at 1.
  assert (Hreset : resetDisplay (appendNumber "." this) = appendNumber "." this).
  { unfold resetDisplay. now rewrite appendNumber_flag. }
  rewrite Hreset. cbn [String.eqb Ascii.eqb Bool.eqb andb].
  destruct (JS.includes "." (currentOperand (appendNumber "." this))) eqn:Hinc;
    [reflexivity|].
  destruct (maxDigits <=? String.length (currentOperand (appendNumber "." this)))%nat
    eqn:Hlen; [reflexivity|].
  exfalso. revert Hinc Hlen. unfold appendNumber.
  cbn [String.eqb Ascii.eqb Bool.eqb andb].
  destruct (JS.includes "." (currentOperand (resetDisplay this))) eqn:Hinc';
    [congruence|].
  destruct (maxDigits <=? String.length (currentOperand (resetDisplay this)))%nat
    eqn:Hlen'; [congruence|].
  cbn [currentOperand]. now rewrite includes_app_point.
Qed.

(** C6, amended. In every reachable state [currentOperand] holds at most
    one point.  [appendNumber('.')] is a no-op when [shouldResetDisplay] is
    false and [currentOperand] already holds a point; when the flag is
    raised it drops the result on display and starts the operand ".".  A
    second press of
    the point changes nothing after the first, and the two leave exactly
    one point whenever the first was not refused for the length: after a
    result, with a point already there, or below [maxDigits] characters. *)
Theorem at_most_one_point :
  (forall this : Calculator,
     reachable this -> (occurrences "." (currentOperand this) <= 1)%nat)
  /\ (forall this : Calculator,
        shouldResetDisplay this = false ->
        JS.includes "." (currentOperand this) = true ->
        appendNumber "." this = this)
  /\ (forall this : Calculator,
        shouldResetDisplay this = true ->
        appendNumber "." this
        = mkCalculator "." (previousOperand this) (operation this) false)
  /\ (forall this : Calculator,
        appendNumber "." (appendNumber "." this) = appendNumber "." this)
  /\ (forall this : Calculator,
        reachable this ->
        shouldResetDisplay this = true
        \/ JS.includes "." (currentOperand this) = true
        \/ (String.length (currentOperand this) < maxDigits)%nat ->
        occurrences "."
          (currentOperand (appendNumber "." (appendNumber "." this))) = 1%nat).
Proof.
  assert (Hinv : forall this : Calculator,
             reachable this -> (occurrences "." (currentOperand this) <= 1)%nat).
  { induction 1 as [|this cmd Hreach IH Hcmd]; [simpl; lia|].
    destruct cmd as [number|operator| | |]; cbn [handle].
    - cbn [accepted] in Hcmd. unfold appendNumber.
      assert (Hreset : (occurrences "." (currentOperand (resetDisplay this)) <= 1)%nat).
      { unfold resetDisplay. destruct (shouldResetDisplay this); [simpl; lia | exact IH]. }
      destruct (number =? ".")%string eqn:Hnum; cbn [andb].
      + destruct (JS.includes "." (currentOperand (resetDisplay this))) eqn:Hinc;
          [exact Hreset|].
        destruct (_ <=? _)%nat; [exact Hreset|]. cbn [currentOperand].
        apply String.eqb_eq in Hnum. subst number.
        rewrite occurrences_app, (includes_false_occurrences _ _ Hinc). simpl; lia.
      + destruct (_ <=? _)%nat; [exact Hreset|]. cbn [currentOperand].
        rewrite occurrences_app, (isNumberKey_no_dot _ Hcmd Hnum). lia.
    - destruct (chooseOperation_cases operator this)
        as [-> | [(_ & -> & _) | [prev ->]]]; cbn; [exact IH | lia | lia].
    - destruct (compute_cases this) as [-> | [x ->]]; cbn [currentOperand];
        [exact IH | apply Number_toString_one_dot].
    - simpl; lia.
    - unfold delete. destruct (shouldResetDisplay this); cbn [currentOperand clear].
      + simpl; lia.
      + etransitivity; [apply occurrences_slice_le | exact IH]. }
  split; [exact Hinv|].
  split; [|split; [|split; [exact appendNumber_point_twice|]]].
  - intros this Hflag Hinc. unfold appendNumber, resetDisplay.
    rewrite Hflag. cbn [String.eqb Ascii.eqb Bool.eqb andb]. now rewrite Hinc.
  - intros this Hflag. unfold appendNumber, resetDisplay.
    rewrite Hflag. reflexivity.
  - intros this Hreach Hroom. rewrite appendNumber_point_twice.
    unfold appendNumber, resetDisplay.
    cbn [String.eqb Ascii.eqb Bool.eqb andb].
    destruct (shouldResetDisplay this) eqn:Hflag; cbn [currentOperand].
    + reflexivity.
    + destruct (JS.includes "." (currentOperand this)) eqn:Hinc.
      * pose proof (includes_true_occurrences _ _ Hinc).
        pose proof (Hinv this Hreach). lia.
      * destruct Hroom as [Hroom | [Hroom | Hroom]]; try discriminate.
        apply Nat.leb_gt in Hroom. rewrite Hroom. cbn [currentOperand].
        rewrite occurrences_app, (includes_false_occurrences _ _ Hinc).
        reflexivity.
Qed.

Lemma at_most_one_point_witness :
  (occurrences "." (currentOperand after_sum) <= 1)%nat
  /\ appendNumber "." (mkCalculator "0.3" "" None false)
     = mkCalculator "0.3" "" None false
  /\ appendNumber "." (mkCalculator "0.3" "" None true)
     = mkCalculator "." "" None false
  /\ occurrences "."
       (currentOperand (appendNumber "." (appendNumber "." initial))) = 1%nat.
Proof.
  split; [|split; [|split]].
  - apply (proj1 at_most_one_point).
    apply run_reachable; [constructor | reflexivity].
  - apply (proj1 (proj2 at_most_one_point)); reflexivity.
  - apply (proj1 (proj2 (proj2 at_most_one_point))
             (mkCalculator "0.3" "" None true)); reflexivity.
  - apply (proj2 (proj2 (proj2 (proj2 at_most_one_point)))).
    + constructor.
    + right; right. unfold maxDigits. simpl. lia.
Defined.

(** C5, as stated, fails: the result [compute] stores for 10000 ÷ 3 is
    thirteen characters long. *)
Lemma compute_result_exceeds_maxDigits :
  reachable after_quotient
  /\ after_quotient = mkCalculator "3333.33333333" "" None true
  /\ (maxDigits < String.length (currentOperand after_quotient))%nat.
Proof.
  split; [|split].
  - apply run_reachable; [constructor | reflexivity].
  - vm_compute. reflexivity.
  - vm_compute. lia.
Qed.

(** C5, amended. In every reachable state whose [shouldResetDisplay] is
    false, so that [currentOperand] is typed input and not a stored result,
    [currentOperand] is at most [maxDigits] (12) characters long;
    [appendNumber] is a no-op when [shouldResetDisplay] is false and
    [currentOperand] already has 12 characters or more; and whatever
    [appendNumber] leaves in a reachable state is within the bound.  The
    result [compute] stores is not held to it: 10000 ÷ 3 stores thirteen
    characters. *)
Theorem typed_operand_within_maxDigits :
  (forall this : Calculator,
     reachable this ->
     shouldResetDisplay this = false ->
     (String.length (currentOperand this) <= maxDigits)%nat)
  /\ (forall (this : Calculator) (number : string),
        shouldResetDisplay this = false ->
        (maxDigits <= String.length (currentOperand this))%nat ->
        appendNumber number this = this)
  /\ (forall (this : Calculator) (number : string),
        reachable this ->
        isNumberKey number = true ->
        (String.length (currentOperand (appendNumber number this))
         <= maxDigits)%nat)
  /\ compute (mkCalculator "3" "10000" (Some division_sign) false)
     = (mkCalculator "3333.33333333" "" None true, None).
Proof.
  assert (Hinv : forall this : Calculator,
             reachable this ->
             shouldResetDisplay this = false ->
             (String.length (currentOperand this) <= maxDigits)%nat).
  { induction 1 as [|this cmd Hreach IH Hcmd]; [unfold maxDigits; simpl; lia|].
    destruct cmd as [number|operator| | |]; cbn [handle].
    - cbn [accepted] in Hcmd. intros _. unfold appendNumber.
      assert (Hreset : (String.length (currentOperand (resetDisplay this))
                        <= maxDigits)%nat).
      { unfold resetDisplay. destruct (shouldResetDisplay this);
          [unfold maxDigits; simpl; lia | now apply IH]. }
      destruct (_ && _); [exact Hreset|].
      destruct (Nat.leb_spec maxDigits
                  (String.length (currentOperand (resetDisplay this))))
        as [Hfull|Hroom]; [exact Hreset|].
      cbn [currentOperand].
      rewrite length_app, (isNumberKey_length _ Hcmd). lia.
    - destruct (chooseOperation_cases operator this)
        as [-> | [(Hcur & -> & _) | [prev ->]]]; cbn;
        [exact IH | unfold maxDigits; lia | unfold maxDigits; lia].
    - destruct (compute_cases this) as [-> | [x ->]]; cbn;
        [exact IH | discriminate].
    - unfold maxDigits; simpl; lia.
    - unfold delete. destruct (shouldResetDisplay this) eqn:Hflag;
        cbn [currentOperand shouldResetDisplay clear].
      + unfold maxDigits; simpl; lia.
      + intros _. etransitivity; [apply length_slice_le | now apply IH]. }
  split; [exact Hinv|]. split; [|split].
  - intros this number Hflag Hfull. unfold appendNumber, resetDisplay.
    rewrite Hflag. destruct (_ && _); [reflexivity|].
    apply Nat.leb_le in Hfull. now rewrite Hfull.
  - intros this number Hreach Hkey. apply Hinv.
    + apply (reachable_handle this (NumberInput number) Hreach Hkey).
    + apply appendNumber_flag.
  - vm_compute. reflexivity.
Qed.

Lemma typed_operand_within_maxDigits_witness :
  (String.length (currentOperand (run [NumberInput "1"; NumberInput "2"] initial))
   <= maxDigits)%nat
  /\ appendNumber "7" (mkCalculator "123456789012" "" None false)
     = mkCalculator "123456789012" "" None false
  /\ (String.length (currentOperand (appendNumber "7" after_quotient))
      <= maxDigits)%nat.
Proof.
  split; [|split].
  - apply (proj1 typed_operand_within_maxDigits).
    + apply run_reachable; [constructor | reflexivity].
    + reflexivity.
  - apply (proj1 (proj2 typed_operand_within_maxDigits)).
    + reflexivity.
    + unfold maxDigits. simpl. lia.
  - apply (proj1 (proj2 (proj2 typed_operand_within_maxDigits))).
    + apply run_reachable; [constructor | reflexivity].
    + reflexivity.
Defined.

(* ================================================================== *)
(** * Rounding of the result *)
(* ================================================================== *)

(** C3, as stated, fails: 0 - 4.001953125 is exact, adding
    [Number.EPSILON] does not move it, and its product with [10^8] is the
    half-integer -400195312.5.  Rounded half away from zero, as the
    specification words it, the result would read "-4.00195313"; [compute]
    stores "-4.00195312". *)
Lemma compute_rounds_negative_tie_up :
  let computation := JS.sub (JS.parseFloat "0") (JS.parseFloat "4.001953125") in
  reachable negative_tie
  /\ negative_tie = mkCalculator "4.001953125" "0" (Some "-") false
  /\ switch_operation (operation negative_tie)
       (JS.parseFloat (previousOperand negative_tie))
       (JS.parseFloat (currentOperand negative_tie)) = Value computation
  /\ JS.add computation JS.EPSILON = computation
  /\ JS.mul computation (JS.of_Z 100000000) = JS.of_Z_pow2 (- 800390625) (- 1)
  /\ JS.Number_toString (spec_round8 computation) = "-4.00195313"
  /\ compute negative_tie = (mkCalculator "-4.00195312" "" None true, None)
  /\ currentOperand (fst (compute negative_tie))
     <> JS.Number_toString (spec_round8 computation).
Proof.
  cbv zeta.
  split; [|split; [|split; [|split; [|split; [|split; [|split]]]]]].
  - apply run_reachable; [constructor | reflexivity].
  - vm_compute. reflexivity.
  - vm_compute. reflexivity.
  - vm_compute. reflexivity.
  - vm_compute. reflexivity.
  - vm_compute. reflexivity.
  - vm_compute. reflexivity.
  - vm_compute. discriminate.
Qed.

(** C3, amended. [compute] replaces every finite result by
    [Math.round((result + Number.EPSILON) * 10^8) / 10^8], all in binary64,
    and stores its string.  [Math.round] takes the nearest integer and, in
    a tie, the one toward +infinity, so that a negative half goes up, not
    away from zero: 0 - 4.001953125 is stored as "-4.00195312".  With "0.1"
    pending, '+' and "0.2" typed, the stored string is exactly "0.3". *)
Theorem compute_rounds_to_eight_places :
  (forall (this : Calculator) (computation : JS.Number),
     JS.isNaN (JS.parseFloat (previousOperand this)) = false ->
     JS.isNaN (JS.parseFloat (currentOperand this)) = false ->
     switch_operation (operation this)
       (JS.parseFloat (previousOperand this))
       (JS.parseFloat (currentOperand this)) = Value computation ->
     JS.isFinite computation = true ->
     compute this
     = (mkCalculator
          (JS.Number_toString
             (JS.div
                (JS.Math_round
                   (JS.mul (JS.add computation JS.EPSILON) (JS.of_Z 100000000)))
                (JS.of_Z 100000000)))
          "" None true, None))
  /\ (forall (s : bool) (m : positive) (e : Z),
        e < 0 -> Zpos m < 2 ^ 53 ->
        exists r : Z,
          integer_value (JS.Math_round (S754_finite s m e)) r
          /\ - 2 ^ (- e) < 2 * (r * 2 ^ (- e) - JS.signed_mantissa s m)
             <= 2 ^ (- e))
  /\ (forall flag : bool,
        compute (mkCalculator "0.2" "0.1" (Some "+") flag)
        = (mkCalculator "0.3" "" None true, None))
  /\ compute (mkCalculator "4.001953125" "0" (Some "-") false)
     = (mkCalculator "-4.00195312" "" None true, None).
Proof.
  split; [|split; [|split]].
  - intros this computation Hprev Hcur Hswitch Hfinite. unfold compute.
    cbv zeta. rewrite Hprev, Hcur. cbn [orb].
    rewrite Hswitch, Hfinite. reflexivity.
  - exact Math_round_nearest_ties_up.
  - intros flag. vm_compute. reflexivity.
  - vm_compute. reflexivity.
Qed.

Lemma compute_rounds_to_eight_places_witness :
  compute (mkCalculator "3" "1" (Some division_sign) false)
  = (mkCalculator
       (JS.Number_toString
          (JS.div
             (JS.Math_round
                (JS.mul
                   (JS.add (JS.div (JS.of_Z 1) (JS.of_Z 3)) JS.EPSILON)
                   (JS.of_Z 100000000)))
             (JS.of_Z 100000000)))
       "" None true, None)
  /\ exists r : Z,
       integer_value (JS.Math_round (JS.of_Z_pow2 (- 5) (- 1))) r
       /\ - 2 ^ 51 < 2 * (r * 2 ^ 51 - (- 5629499534213120)) <= 2 ^ 51.
Proof.
  split.
  - apply (proj1 compute_rounds_to_eight_places
             (mkCalculator "3" "1" (Some division_sign) false)
             (JS.div (JS.of_Z 1) (JS.of_Z 3))); vm_compute; reflexivity.
  - apply (proj1 (proj2 compute_rounds_to_eight_places)
             true 5629499534213120%positive (- 51)); [lia | vm_compute; reflexivity].
Defined.

(* ================================================================== *)
(** * Formatting for the display *)
(* ================================================================== *)

(** C9. [getDisplayNumber] maps the empty string to the empty string.
    For an integer part [i] of digits (of value below [2^53], which twelve
    typed characters always are) and a fraction part [f], it returns the
    value of [i] grouped by thousands, then a point, then the first eight
    characters of [f] as they stand: cut, not rounded.  Without a point the
    grouped integer alone is returned; a minus sign in front of [i], as a
    stored result may have, stays in front.  When the integer part is the
    numeral of [z] it is that numeral which is grouped.  In particular
    "1234567.123456789" is shown as "1,234,567.12345678". *)
Theorem getDisplayNumber_spec :
  getDisplayNumber "" = ""
  /\ (forall i f : string,
        i <> "" -> all_digits i = true -> decimal_value i < 2 ^ 53 ->
        JS.includes "." f = false ->
        getDisplayNumber (i ++ "." ++ f)
        = JS.group3 (JS.Z_to_digits (decimal_value i)) ++ "." ++ substring 0 8 f)
  /\ (forall i : string,
        i <> "" -> all_digits i = true -> decimal_value i < 2 ^ 53 ->
        getDisplayNumber i = JS.group3 (JS.Z_to_digits (decimal_value i)))
  /\ (forall i f : string,
        i <> "" -> all_digits i = true -> decimal_value i < 2 ^ 53 ->
        JS.includes "." f = false ->
        getDisplayNumber ("-" ++ i ++ "." ++ f)
        = "-" ++ JS.group3 (JS.Z_to_digits (decimal_value i)) ++ "."
            ++ substring 0 8 f)
  /\ (forall (z : Z) (f : string),
        0 <= z < 2 ^ 53 -> JS.includes "." f = false ->
        getDisplayNumber (JS.Z_to_digits z ++ "." ++ f)
        = JS.group3 (JS.Z_to_digits z) ++ "." ++ substring 0 8 f)
  /\ getDisplayNumber "1234567.123456789" = "1,234,567.12345678".
Proof.
  assert (Hfrac : forall i f : string,
             i <> "" -> all_digits i = true -> decimal_value i < 2 ^ 53 ->
             JS.includes "." f = false ->
             getDisplayNumber (i ++ "." ++ f)
             = JS.group3 (JS.Z_to_digits (decimal_value i)) ++ "."
                 ++ substring 0 8 f).
  { intros i f Hne Hi Hv Hf. unfold getDisplayNumber.
    rewrite app_point_nonempty.
    change (i ++ "." ++ f) with (i ++ String "." f).
    rewrite split_at_first by now apply all_digits_no_dot.
    rewrite split_no_separator by exact Hf.
    cbn [hd nth_error].
    rewrite parseFloat_all_digits by assumption.
    destruct (toLocaleString_en0_integer false (decimal_value i)) as [-> ->].
    - split; [|exact Hv]. now apply decimal_value_from_nonneg.
    - now rewrite slice_0_8. }
  split; [reflexivity|]. split; [exact Hfrac|]. split; [|split; [|split]].
  - intros i Hne Hi Hv. unfold getDisplayNumber.
    pose proof Hne as Hne'. apply String.eqb_neq in Hne'. rewrite Hne'.
    rewrite split_no_separator by now apply all_digits_no_dot.
    cbn [hd nth_error].
    rewrite parseFloat_all_digits by assumption.
    destruct (toLocaleString_en0_integer false (decimal_value i)) as [-> ->].
    + split; [|exact Hv]. now apply decimal_value_from_nonneg.
    + reflexivity.
  - intros i f Hne Hi Hv Hf. unfold getDisplayNumber.
    change ("-" ++ i ++ "." ++ f) with (String "-" i ++ String "." f).
    replace (String "-" i ++ String "." f =? "")%string with false by reflexivity.
    rewrite split_at_first
      by (cbn [JS.includes]; now rewrite all_digits_no_dot).
    rewrite split_no_separator by exact Hf.
    cbn [hd nth_error].
    rewrite parseFloat_minus_all_digits by assumption.
    destruct (toLocaleString_en0_integer true (decimal_value i)) as [-> ->].
    + split; [|exact Hv]. now apply decimal_value_from_nonneg.
    + rewrite slice_0_8. reflexivity.
  - intros z f Hz Hf.
    destruct (Z_to_digits_value z) as (Hne & Hdigits & Hvalue); [lia|].
    rewrite Hfrac by (try assumption; rewrite Hvalue; lia).
    now rewrite Hvalue.
  - vm_compute. reflexivity.
Qed.

Lemma getDisplayNumber_spec_witness :
  getDisplayNumber ("0042" ++ "." ++ "5")
  = JS.group3 (JS.Z_to_digits (decimal_value "0042")) ++ "." ++ substring 0 8 "5"
  /\ getDisplayNumber "999999999999"
     = JS.group3 (JS.Z_to_digits (decimal_value "999999999999"))
  /\ getDisplayNumber ("-" ++ "4" ++ "." ++ "00195312")
     = "-" ++ JS.group3 (JS.Z_to_digits (decimal_value "4")) ++ "."
         ++ substring 0 8 "00195312"
  /\ getDisplayNumber (JS.Z_to_digits 1234567 ++ "." ++ "123456789")
     = JS.group3 (JS.Z_to_digits 1234567) ++ "." ++ substring 0 8 "123456789".
Proof.
  split; [|split; [|split]].
  - apply (proj1 (proj2 getDisplayNumber_spec) "0042" "5");
      [discriminate | reflexivity | vm_compute; reflexivity | reflexivity].
  - apply (proj1 (proj2 (proj2 getDisplayNumber_spec)) "999999999999");
      [discriminate | reflexivity | vm_compute; reflexivity].
  - apply (proj1 (proj2 (proj2 (proj2 getDisplayNumber_spec))) "4" "00195312");
      [discriminate | reflexivity | vm_compute; reflexivity | reflexivity].
  - apply (proj1 (proj2 (proj2 (proj2 (proj2 getDisplayNumber_spec))))
             1234567 "123456789"); [lia | reflexivity].
Defined.

(* ================================================================== *)
(** * Typing and erasing *)
(* ================================================================== *)

Section Typing.

Lemma app_empty_r (s : string) : s ++ "" = s.
Proof. induction s as [|c s IH]; simpl; [reflexivity | now rewrite IH]. Qed.

Lemma includes_occurrences_0 (c : ascii) (s : string) :
  occurrences c s = 0%nat -> JS.includes c s = false.
Proof.
  induction s as [|c' s IH]; simpl; [reflexivity|].
  destruct (c' =? c)%char; simpl; [discriminate | exact IH].
Qed.

(** One accepted key on an operand being typed. *)
Lemma appendNumber_accepted (this : Calculator) (c : ascii) :
  shouldResetDisplay this = false ->
  (String.length (currentOperand this) < maxDigits)%nat ->
  ((c =? ".")%char = true -> JS.includes "." (currentOperand this) = false) ->
  appendNumber (String c EmptyString) this
  = mkCalculator (currentOperand this ++ String c EmptyString)
      (previousOperand this) (operation this) false.
Proof.
  intros Hflag Hlen Hdot. unfold appendNumber, resetDisplay.
  rewrite Hflag. cbn [String.eqb].
  replace (maxDigits <=? String.length (currentOperand this))%nat with false
    by (symmetry; apply Nat.leb_gt; exact Hlen).
  destruct (c =? ".")%char eqn:Hc; cbn [andb].
  - rewrite (Hdot eq_refl). now rewrite Hflag.
  - now rewrite Hflag.
Qed.

End Typing.

(** X1. Typing: on an operand being typed ([shouldResetDisplay] false),
    the keys of a string [s] of digits and points, pressed one by one,
    append [s] to [currentOperand] and touch nothing else, as long as the
    whole stays within [maxDigits] characters and one point.  From the
    initial state the operand is [s] itself. *)
Theorem typing_appends (this : Calculator) (s : string) :
  shouldResetDisplay this = false ->
  typed s = true ->
  (occurrences "." (currentOperand this ++ s) <= 1)%nat ->
  (String.length (currentOperand this ++ s) <= maxDigits)%nat ->
  run (map NumberInput (keys_of s)) this
  = mkCalculator (currentOperand this ++ s) (previousOperand this)
      (operation this) false.
Proof.
  revert this; induction s as [|c s IH]; intros this Hflag Htyped Hdots Hlen.
  - rewrite app_empty_r. destruct this; simpl in *. now subst.
  - cbn [keys_of map run fold_left handle].
    change (fold_left (fun c0 cmd => handle cmd c0) (map NumberInput (keys_of s))
              (appendNumber (String c "") this))
      with (run (map NumberInput (keys_of s)) (appendNumber (String c "") this)).
    rewrite occurrences_app in Hdots. cbn [occurrences] in Hdots.
    rewrite length_app in Hlen. cbn [String.length] in Hlen.
    rewrite appendNumber_accepted; [| exact Hflag | lia |].
    + cbn [typed] in Htyped. apply andb_prop in Htyped as [_ Htyped].
      rewrite IH; cbn [currentOperand previousOperand operation shouldResetDisplay];
        try reflexivity; try assumption.
      * now rewrite app_assoc.
      * rewrite app_assoc. cbn [append].
        rewrite occurrences_app. cbn [occurrences]. lia.
      * rewrite app_assoc. cbn [append].
        rewrite length_app. cbn [String.length]. lia.
    + intros Hc. rewrite Hc in Hdots.
      apply includes_occurrences_0. lia.
Qed.

Lemma typing_appends_witness :
  run (map NumberInput (keys_of "3.14")) initial
  = mkCalculator ("" ++ "3.14") "" None false.
Proof.
  apply (typing_appends initial "3.14").
  - reflexivity.
  - reflexivity.
  - simpl. lia.
  - unfold maxDigits. simpl. lia.
Defined.

(** X2. Erasing: on an operand being typed, [delete] undoes an
    [appendNumber] that was accepted (room left, and no second point). *)
Theorem delete_undoes_appendNumber (this : Calculator) (c : ascii) :
  shouldResetDisplay this = false ->
  (String.length (currentOperand this) < maxDigits)%nat ->
  ((c =? ".")%char = true -> JS.includes "." (currentOperand this) = false) ->
  delete (appendNumber (String c EmptyString) this) = this.
Proof.
  intros Hflag Hlen Hdot.
  rewrite appendNumber_accepted by assumption.
  unfold delete. cbn [shouldResetDisplay currentOperand previousOperand operation].
  rewrite slice_drop_last. destruct this; simpl in *. now subst.
Qed.

Lemma delete_undoes_appendNumber_witness :
  delete (appendNumber "." (mkCalculator "12" "7" (Some "+") false))
  = mkCalculator "12" "7" (Some "+") false.
Proof.
  apply (delete_undoes_appendNumber (mkCalculator "12" "7" (Some "+") false) ".").
  - reflexivity.
  - unfold maxDigits. simpl. lia.
  - reflexivity.
Defined.

(* ================================================================== *)
(** * Where NaN cannot come from *)
(* ================================================================== *)

Section NotNaN.

Lemma shr_1_nonneg (mrs : shr_record) :
  0 <= shr_m mrs -> 0 <= shr_m (shr_1 mrs).
Proof.
  destruct mrs as [m r s]. cbn [shr_m]. intros Hm.
  destruct m as [|[p|p|]|p]; cbn; lia.
Qed.

Lemma iter_pos_shr_1_nonneg (p : positive) (mrs : shr_record) :
  0 <= shr_m mrs -> 0 <= shr_m (iter_pos shr_1 p mrs).
Proof.
  revert mrs; induction p as [p IH|p IH|]; intros mrs Hm; cbn [iter_pos].
  - apply IH, IH, shr_1_nonneg, Hm.
  - apply IH, IH, Hm.
  - apply shr_1_nonneg, Hm.
Qed.

Lemma shr_fexp_nonneg (m e : Z) (l : location) :
  0 <= m -> 0 <= shr_m (fst (shr_fexp JS.prec JS.emax m e l)).
Proof.
  intros Hm. unfold shr_fexp, shr.
  assert (H0 : 0 <= shr_m (shr_record_of_loc m l))
    by (destruct l as [|[]]; exact Hm).
  destruct (fexp JS.prec JS.emax (Zdigits2 m + e) - e) as [|p|p]; cbn [fst];
    [exact H0 | now apply iter_pos_shr_1_nonneg | exact H0].
Qed.

Lemma round_nearest_even_nonneg (m : Z) (l : location) :
  0 <= m -> 0 <= round_nearest_even m l.
Proof.
  intros Hm. destruct l as [|[]]; cbn [round_nearest_even]; try lia.
  destruct (Z.even m); lia.
Qed.

(** Rounding a natural mantissa gives zero, a finite number or an
    infinity. *)
Lemma binary_round_aux_not_nan (s : bool) (m e : Z) (l : location) :
  0 <= m -> JS.isNaN (binary_round_aux JS.prec JS.emax s m e l) = false.
Proof.
  intros Hm. unfold binary_round_aux.
  pose proof (shr_fexp_nonneg m e l Hm) as H1.
  destruct (shr_fexp JS.prec JS.emax m e l) as [mrs' e'].
  cbn [fst] in H1.
  pose proof (shr_fexp_nonneg _ e' loc_Exact
                (round_nearest_even_nonneg _ (loc_of_shr_record mrs') H1)) as H2.
  destruct (shr_fexp JS.prec JS.emax _ e' loc_Exact) as [mrs'' e''].
  cbn [fst] in H2.
  destruct (shr_m mrs'') as [|p|p]; [reflexivity | | lia].
  destruct (e'' <=? JS.emax - JS.prec); reflexivity.
Qed.

Lemma binary_normalize_not_nan (m e : Z) (s : bool) :
  JS.isNaN (binary_normalize JS.prec JS.emax m e s) = false.
Proof.
  destruct m as [|p|p]; cbn [binary_normalize]; [reflexivity | |];
    unfold binary_round;
    destruct (shl_align _ _ _) as [mz ez];
    apply binary_round_aux_not_nan; lia.
Qed.

Lemma SFdiv_core_binary_nonneg (m1 e1 m2 e2 : Z) :
  0 <= m1 -> 0 < m2 ->
  0 <= fst (fst (SFdiv_core_binary JS.prec JS.emax m1 e1 m2 e2)).
Proof.
  intros H1 H2. unfold SFdiv_core_binary.
  generalize (e1 - e2
              - Z.min (fexp JS.prec JS.emax
                         (Zdigits2 m1 + e1 - (Zdigits2 m2 + e2))) (e1 - e2)).
  intros s.
  assert (Hm' : 0 <= match s with
                     | Zpos _ => Z.shiftl m1 s
                     | Z0 => m1
                     | Zneg _ => 0
                     end).
  { destruct s; [exact H1 | | lia]. now apply Z.shiftl_nonneg. }
  revert Hm'.
  generalize (match s with
              | Zpos _ => Z.shiftl m1 s
              | Z0 => m1
              | Zneg _ => 0
              end).
  intros m' Hm'.
  pose proof (Z.div_pos m' m2 Hm' H2) as Hq. unfold Z.div in Hq.
  destruct (Z.div_eucl m' m2) as [q r]. exact Hq.
Qed.

Lemma of_decimal_not_nan (neg : bool) (n e : Z) :
  0 <= n -> JS.isNaN (JS.of_decimal neg n e) = false.
Proof.
  intros Hn. unfold JS.of_decimal.
  destruct (n =? 0); [reflexivity|].
  destruct (Z.leb_spec 0 e) as [_|He]; [apply binary_normalize_not_nan|].
  pose proof (SFdiv_core_binary_nonneg n 0 (10 ^ (- e)) 0 Hn) as Hq.
  destruct (SFdiv_core_binary JS.prec JS.emax n 0 (10 ^ (- e)) 0) as [[q e'] l].
  apply binary_round_aux_not_nan. apply Hq.
  apply Z.pow_pos_nonneg; lia.
Qed.

Lemma add_finite_not_nan (x y : JS.Number) :
  JS.isFinite x = true -> JS.isFinite y = true -> JS.isNaN (JS.add x y) = false.
Proof.
  destruct x as [sx|sx| |sx mx ex], y as [sy|sy| |sy my ey];
    try discriminate; intros _ _; unfold JS.add; cbn [SFadd];
    try reflexivity.
  - destruct sx, sy; reflexivity.
  - apply binary_normalize_not_nan.
Qed.

Lemma mul_finite_not_nan (x : JS.Number) (s : bool) (m : positive) (e : Z) :
  JS.isNaN x = false -> JS.isNaN (JS.mul x (S754_finite s m e)) = false.
Proof.
  destruct x as [sx|sx| |sx mx ex]; try discriminate; intros _;
    unfold JS.mul; cbn [SFmul]; try reflexivity.
  apply binary_round_aux_not_nan. lia.
Qed.

Lemma div_finite_not_nan (x : JS.Number) (s : bool) (m : positive) (e : Z) :
  JS.isNaN x = false -> JS.isNaN (JS.div x (S754_finite s m e)) = false.
Proof.
  destruct x as [sx|sx| |sx mx ex]; try discriminate; intros _;
    unfold JS.div; cbn [SFdiv]; try reflexivity.
  pose proof (SFdiv_core_binary_nonneg (Zpos mx) ex (Zpos m) e) as Hq.
  destruct (SFdiv_core_binary JS.prec JS.emax (Zpos mx) ex (Zpos m) e)
    as [[q e'] l].
  apply binary_round_aux_not_nan. apply Hq; lia.
Qed.

Lemma Math_round_not_nan (x : JS.Number) :
  JS.isNaN x = false -> JS.isNaN (JS.Math_round x) = false.
Proof.
  destruct x as [sx|sx| |sx mx ex]; try discriminate; intros _;
    cbn [JS.Math_round]; try reflexivity.
  destruct (0 <=? ex); [reflexivity | apply binary_normalize_not_nan].
Qed.

(** The rounding of [compute] turns a finite number into a number or an
    infinity. *)
Lemma round8_not_nan (x : JS.Number) :
  JS.isFinite x = true -> JS.isNaN (round8 x) = false.
Proof.
  intros Hx. unfold round8.
  change (JS.of_Z 100000000) with (S754_finite false 6710886400000000 (-26)).
  apply div_finite_not_nan, Math_round_not_nan, mul_finite_not_nan.
  now apply add_finite_not_nan.
Qed.

End NotNaN.

(* ================================================================== *)
(** * Strings that parse to a number *)
(* ================================================================== *)

Section Parses.

Lemma scan_digits_bounds (s : string) (acc cnt : Z) :
  0 <= acc ->
  0 <= fst (fst (JS.scan_digits s acc cnt))
  /\ cnt <= snd (fst (JS.scan_digits s acc cnt)).
Proof.
  revert acc cnt; induction s as [|c s IH]; intros acc cnt Hacc;
    cbn [JS.scan_digits].
  - cbn. lia.
  - destruct (JS.is_digit c) eqn:Hc; [|cbn; lia].
    pose proof (digit_value_bounds c Hc).
    destruct (IH (10 * acc + JS.digit_value c) (cnt + 1)) as [H1 H2]; lia.
Qed.

Lemma scan_digits_digit_head (c : ascii) (s : string) (acc cnt : Z) :
  JS.is_digit c = true -> 0 <= acc ->
  0 <= fst (fst (JS.scan_digits (String c s) acc cnt))
  /\ cnt < snd (fst (JS.scan_digits (String c s) acc cnt)).
Proof.
  intros Hc Hacc. cbn [JS.scan_digits]. rewrite Hc.
  pose proof (digit_value_bounds c Hc).
  destruct (scan_digits_bounds s (10 * acc + JS.digit_value c) (cnt + 1)); lia.
Qed.

(** A numeral that starts with a digit is never NaN. *)
Lemma parse_unsigned_digit_head (neg : bool) (c : ascii) (s : string) :
  JS.is_digit c = true ->
  JS.isNaN (JS.parse_unsigned neg (String c s)) = false.
Proof.
  intros Hc. unfold JS.parse_unsigned.
  rewrite prefix_Infinity_digit_head by exact Hc.
  destruct (scan_digits_digit_head c s 0 0 Hc ltac:(lia)) as [Hip Hicnt].
  destruct (JS.scan_digits (String c s) 0 0) as [[ip icnt] rest].
  cbn [fst snd] in Hip, Hicnt.
  assert (Hnz : (icnt =? 0) = false) by (apply Z.eqb_neq; lia).
  assert (Hplain : JS.isNaN (if icnt =? 0 then S754_nan
                             else JS.of_decimal neg ip (JS.scan_exponent rest))
                   = false)
    by (rewrite Hnz; now apply of_decimal_not_nan).
  destruct rest as [|c' rest']; [exact Hplain|].
  assert (Hpoint : JS.isNaN
                     (let '(fp, fcnt, rest'') := JS.scan_digits rest' ip 0 in
                      if (icnt =? 0) && (fcnt =? 0) then S754_nan
                      else JS.of_decimal neg fp (JS.scan_exponent rest'' - fcnt))
                   = false).
  { destruct (scan_digits_bounds rest' ip 0 Hip) as [Hfp _].
    destruct (JS.scan_digits rest' ip 0) as [[fp fcnt] rest''].
    rewrite Hnz. cbn [andb]. now apply of_decimal_not_nan. }
  destruct c' as [[] [] [] [] [] [] [] []];
    first [exact Hpoint | exact Hplain].
Qed.

(** So is one that starts with a point followed by a digit. *)
Lemma parse_unsigned_point_head (neg : bool) (c : ascii) (s : string) :
  JS.is_digit c = true ->
  JS.isNaN (JS.parse_unsigned neg (String "." (String c s))) = false.
Proof.
  intros Hc. unfold JS.parse_unsigned.
  change (prefix "Infinity" (String "." (String c s))) with false.
  change (JS.scan_digits (String "." (String c s)) 0 0)
    with (0, 0, String "." (String c s)).
  cbv iota beta.
  destruct (scan_digits_digit_head c s 0 0 Hc ltac:(lia)) as [Hfp Hfcnt].
  destruct (JS.scan_digits (String c s) 0 0) as [[fp fcnt] rest].
  cbn [fst snd] in Hfp, Hfcnt.
  replace (fcnt =? 0) with false by (symmetry; apply Z.eqb_neq; lia).
  cbn [Z.eqb andb]. now apply of_decimal_not_nan.
Qed.

Lemma typed_head (c : ascii) (s : string) :
  typed (String c s) = true ->
  (JS.is_digit c = true \/ c = "."%char) /\ typed s = true.
Proof.
  cbn [typed]. intros H. apply andb_prop in H as [Hc Hs]. split; [|exact Hs].
  apply orb_prop in Hc as [Hc|Hc]; [now left | right].
  now apply Ascii.eqb_eq.
Qed.

(** A typed operand parses to a number, unless it is empty or a lone
    point. *)
Lemma parseFloat_typed (s : string) :
  typed s = true -> (occurrences "." s <= 1)%nat ->
  s <> "" -> s <> "." ->
  JS.isNaN (JS.parseFloat s) = false.
Proof.
  intros Htyped Hdots Hne Hnp.
  destruct s as [|c s]; [contradiction|].
  destruct (typed_head c s Htyped) as [[Hc | ->] Hs].
  - rewrite parseFloat_digit_head by exact Hc.
    now apply parse_unsigned_digit_head.
  - destruct s as [|c' s]; [contradiction|].
    destruct (typed_head c' s Hs) as [[Hc' | ->] _].
    + change (JS.parseFloat (String "." (String c' s)))
        with (JS.parse_unsigned false (String "." (String c' s))).
      now apply parse_unsigned_point_head.
    + cbn in Hdots. lia.
Qed.

Lemma Z_to_digits_head (z : Z) :
  exists (c : ascii) (rest : string),
    JS.Z_to_digits z = String c rest /\ JS.is_digit c = true.
Proof.
  pose proof (Z_to_digits_nonempty z) as Hlen.
  pose proof (digits_fuel_all_digits (S (Z.to_nat (Z.log2 z))) z) as Hall.
  fold (JS.Z_to_digits z) in Hall.
  destruct (JS.Z_to_digits z) as [|c rest]; [simpl in Hlen; lia|].
  cbn [all_digits] in Hall. apply andb_prop in Hall as [Hc _].
  now exists c, rest.
Qed.

Lemma format_digits_head (c : ascii) (ds : string) (n : Z) :
  JS.is_digit c = true ->
  exists (c' : ascii) (rest : string),
    JS.format_digits (String c ds) n = String c' rest /\ JS.is_digit c' = true.
Proof.
  intros Hc. unfold JS.format_digits.
  set (k := Z.of_nat (String.length (String c ds))).
  destruct ((k <=? n) && (n <=? 21)); [now eexists _, _|].
  destruct ((0 <? n) && (n <=? 21)) eqn:Hn.
  - apply andb_prop in Hn as [Hn _]. apply Z.ltb_lt in Hn.
    destruct (Z.to_nat n) as [|j] eqn:Hj; [lia|].
    cbn [substring append]. now eexists _, _.
  - destruct ((-6 <? n) && (n <=? 0)); [now exists "0"%char; eexists|].
    destruct (k =? 1); cbn [substring append]; now eexists _, _.
Qed.

(** The string of a Number parses to a Number again, NaN apart. *)
Lemma parseFloat_Number_toString_not_nan (x : JS.Number) :
  JS.isNaN x = false -> JS.isNaN (JS.parseFloat (JS.Number_toString x)) = false.
Proof.
  destruct x as [s|s| |s m e]; try discriminate; intros _.
  - reflexivity.
  - destruct s; reflexivity.
  - unfold JS.Number_toString.
    destruct (JS.shortest _ _ _ _ _ _) as [d n].
    destruct (Z_to_digits_head d) as (c & ds & -> & Hc).
    destruct (format_digits_head c ds n Hc) as (c' & rest & -> & Hc').
    destruct s; cbn [append].
    + change (JS.parseFloat (String "-" (String c' rest)))
        with (JS.parse_unsigned true (String c' rest)).
      now apply parse_unsigned_digit_head.
    + rewrite parseFloat_digit_head by exact Hc'.
      now apply parse_unsigned_digit_head.
Qed.

End Parses.

Section ComputeFacts.

Lemma switch_operation_failure
    (op : option string) (prev current : JS.Number) (message : string) :
  switch_operation op prev current = Failure message ->
  In message error_messages.
Proof.
  unfold switch_operation. destruct op as [o|]; [|discriminate].
  repeat match goal with
         | |- context [if ?b then _ else _] => destruct b
         end;
    intros [= <-] || discriminate; simpl; tauto.
Qed.

(** [compute] in full: an early return with or without a message, or a
    stored result, which is never NaN. *)
Lemma compute_outcomes (this : Calculator) :
  compute this = (this, None)
  \/ (exists message,
        In message error_messages /\ compute this = (this, Some message))
  \/ exists x : JS.Number,
       JS.isNaN x = false
       /\ compute this = (mkCalculator (JS.Number_toString x) "" None true, None).
Proof.
  unfold compute.
  destruct (JS.isNaN _ || JS.isNaN _); [now left|].
  destruct (switch_operation _ _ _) as [computation|message|] eqn:Hswitch.
  - destruct (JS.isFinite computation) eqn:Hfinite; cbn [negb].
    + right; right. exists (round8 computation).
      split; [now apply round8_not_nan | reflexivity].
    + right; left. eexists. split; [|reflexivity]. simpl; tauto.
  - right; left. exists message. split; [|reflexivity].
    eapply switch_operation_failure, Hswitch.
  - now left.
Qed.

Lemma compute_stored_again (x : JS.Number) :
  compute (mkCalculator (JS.Number_toString x) "" None true)
  = (mkCalculator (JS.Number_toString x) "" None true, None).
Proof. reflexivity. Qed.

(** The three ways out of [chooseOperation], with what is reported. *)
Lemma chooseOperation_shape (op : string) (this : Calculator) :
  (currentOperand this = "" /\ previousOperand this = ""
   /\ chooseOperation op this = (this, None))
  \/ (currentOperand this = "" /\ previousOperand this <> ""
      /\ chooseOperation op this
         = (mkCalculator "" (previousOperand this) (Some op)
              (shouldResetDisplay this), None))
  \/ (currentOperand this <> "" /\ carried this <> ""
      /\ chooseOperation op this
         = (mkCalculator "" (carried this) (Some op) false,
            snd (chained this))).
Proof.
  unfold chooseOperation, carried.
  destruct (String.eqb_spec (currentOperand this) "") as [Hcur|Hcur];
    destruct (String.eqb_spec (previousOperand this) "") as [Hprev|Hprev];
    cbn [andb negb].
  - now left.
  - right; left. rewrite Hcur. now repeat split.
  - right; right. unfold chained. rewrite Hprev. cbn. now repeat split.
  - right; right. unfold chained.
    apply String.eqb_neq in Hprev. rewrite Hprev. cbn [negb andb].
    destruct (negb (shouldResetDisplay this)).
    + destruct (compute_outcomes this) as [H | [(message & _ & H) | (x & _ & H)]];
        rewrite H; cbn [fst snd currentOperand]; repeat split; try assumption.
      apply Number_toString_nonempty.
    + now repeat split.
Qed.

End ComputeFacts.

(** X3. Equals twice is equals once: a second [compute] right after the
    first leaves the state of the first; it reports nothing when the first
    reported nothing, and the same error when the first reported one. *)
Theorem compute_twice (this : Calculator) :
  fst (compute (fst (compute this))) = fst (compute this)
  /\ (snd (compute this) = None -> snd (compute (fst (compute this))) = None)
  /\ (forall message : string,
        snd (compute this) = Some message ->
        snd (compute (fst (compute this))) = Some message).
Proof.
  destruct (compute_outcomes this) as [H | [(message & _ & H) | (x & _ & H)]];
    rewrite H; cbn [fst snd].
  - rewrite H. now repeat split.
  - rewrite H. now repeat split.
  - rewrite compute_stored_again. now repeat split.
Qed.

Lemma compute_twice_witness :
  snd (compute (fst (compute (mkCalculator "4" "3" (Some "+") false)))) = None
  /\ snd (compute (fst (compute (mkCalculator "0" "3" (Some "%") false))))
     = Some "Cannot modulo by zero!".
Proof.
  split.
  - apply (proj1 (proj2 (compute_twice (mkCalculator "4" "3" (Some "+") false)))).
    vm_compute. reflexivity.
  - apply (proj2 (proj2 (compute_twice (mkCalculator "0" "3" (Some "%") false)))).
    vm_compute. reflexivity.
Defined.

(** X4. Whenever [compute] calls [showError] it returns with every field as
    it was, and the message is one of three: division by zero, modulo by
    zero, result too large. *)
Theorem compute_error_keeps_state (this : Calculator) (message : string) :
  snd (compute this) = Some message ->
  fst (compute this) = this /\ In message error_messages.
Proof.
  destruct (compute_outcomes this) as [H | [(message' & Hin & H) | (x & _ & H)]];
    rewrite H; cbn [fst snd]; try discriminate.
  intros [= <-]. now split.
Qed.

Lemma compute_error_keeps_state_witness :
  fst (compute (mkCalculator "0" "5" (Some "%") false))
  = mkCalculator "0" "5" (Some "%") false
  /\ In "Cannot modulo by zero!" error_messages.
Proof.
  apply (compute_error_keeps_state (mkCalculator "0" "5" (Some "%") false)).
  vm_compute. reflexivity.
Defined.

(** X5. When the [compute] chained by [chooseOperation] fails, the
    operator is latched all the same: [currentOperand] moves to
    [previousOperand], and the operand that was pending is dropped. *)
Theorem chooseOperation_after_failed_compute
    (op : string) (this : Calculator) (message : string) :
  snd (chooseOperation op this) = Some message ->
  fst (chooseOperation op this)
  = mkCalculator "" (currentOperand this) (Some op) false
  /\ In message error_messages
  /\ currentOperand this <> "" /\ previousOperand this <> "".
Proof.
  unfold chooseOperation.
  destruct (String.eqb_spec (currentOperand this) "") as [Hcur|Hcur];
    destruct (String.eqb_spec (previousOperand this) "") as [Hprev|Hprev];
    cbn [andb negb snd]; try discriminate.
  destruct (negb (shouldResetDisplay this)); cbn [snd]; [|discriminate].
  destruct (compute_outcomes this) as [H | [(message' & Hin & H) | (x & _ & H)]];
    rewrite H; cbn [fst snd]; try discriminate.
  intros [= <-]. now repeat split.
Qed.

Lemma chooseOperation_after_failed_compute_witness :
  fst (chooseOperation "+" (mkCalculator "0" "10" (Some division_sign) false))
  = mkCalculator "" "0" (Some "+") false
  /\ In "Cannot divide by zero!" error_messages
  /\ "0" <> "" /\ "10" <> "".
Proof.
  apply (chooseOperation_after_failed_compute "+"
           (mkCalculator "0" "10" (Some division_sign) false)).
  vm_compute. reflexivity.
Defined.

(** X6. Two operators in a row: the second alone decides.  From any
    state, [chooseOperation(op1)] followed by [chooseOperation(op2)] leaves
    the state [chooseOperation(op2)] alone would, and the second call
    reports nothing. *)
Theorem chooseOperation_twice (op1 op2 : string) (this : Calculator) :
  fst (chooseOperation op2 (fst (chooseOperation op1 this)))
  = fst (chooseOperation op2 this)
  /\ snd (chooseOperation op2 (fst (chooseOperation op1 this))) = None.
Proof.
  destruct (chooseOperation_shape op1 this) as [(Hc & Hp & H1) | [(Hc & Hp & H1) | (Hc & Hm & H1)]];
    destruct (chooseOperation_shape op2 this) as [(Hc' & Hp' & H2) | [(Hc' & Hp' & H2) | (Hc' & Hm' & H2)]];
    try congruence; rewrite H1, H2; cbn [fst].
  - rewrite H2. now split.
  - unfold chooseOperation. cbn [currentOperand previousOperand].
    apply String.eqb_neq in Hp. rewrite Hp. now split.
  - unfold chooseOperation. cbn [currentOperand previousOperand].
    apply String.eqb_neq in Hm. rewrite Hm. now split.
Qed.

(** X7. In every reachable state an operation is pending exactly when
    [previousOperand] is not empty. *)
Theorem operation_pending_iff_previousOperand (this : Calculator) :
  reachable this ->
  (operation this = None <-> previousOperand this = "").
Proof.
  induction 1 as [|this cmd Hreach IH Hcmd].
  - now split.
  - destruct cmd as [number|operator| | |]; cbn [handle].
    + unfold appendNumber, resetDisplay.
      destruct (shouldResetDisplay this);
        repeat match goal with
               | |- context [if ?b then _ else _] => destruct b
               end; exact IH.
    + destruct (chooseOperation_shape operator this)
        as [(_ & _ & ->) | [(_ & Hp & ->) | (_ & Hm & ->)]]; cbn.
      * exact IH.
      * split; [discriminate | contradiction].
      * split; [discriminate | contradiction].
    + destruct (compute_outcomes this) as [-> | [(message & _ & ->) | (x & _ & ->)]];
        cbn; [exact IH | exact IH | now split].
    + now split.
    + unfold delete. destruct (shouldResetDisplay this); cbn; [now split | exact IH].
Qed.

Lemma operation_pending_iff_previousOperand_witness :
  operation after_quotient = None <-> previousOperand after_quotient = "".
Proof.
  apply operation_pending_iff_previousOperand.
  apply run_reachable; [constructor | reflexivity].
Defined.

(* ================================================================== *)
(** * The operands of the reachable states *)
(* ================================================================== *)

Section Operands.

Lemma typed_app (s t : string) : typed (s ++ t) = typed s && typed t.
Proof.
  induction s as [|c s IH]; cbn [append typed]; [reflexivity|].
  now rewrite IH, andb_assoc.
Qed.

Lemma typed_substring (s : string) (n m : nat) :
  typed s = true -> typed (substring n m s) = true.
Proof.
  revert n m; induction s as [|c s IH]; intros n m Hs.
  - now rewrite substring_empty.
  - cbn [typed] in Hs. apply andb_prop in Hs as [Hc Hs].
    destruct n as [|n]; cbn [substring].
    + destruct m as [|m]; [reflexivity|]. cbn [typed]. now rewrite Hc, IH.
    + now apply IH.
Qed.

Lemma isNumberKey_typed (key : string) :
  isNumberKey key = true -> typed key = true.
Proof.
  destruct key as [|c [|c' key]]; cbn [isNumberKey typed]; try discriminate.
  intros ->. reflexivity.
Qed.

Lemma carried_cases (this : Calculator) :
  carried this = currentOperand this
  \/ exists x : JS.Number,
       JS.isNaN x = false /\ carried this = JS.Number_toString x.
Proof.
  unfold carried, chained.
  destruct (_ && _); [|now left].
  destruct (compute_outcomes this) as [-> | [(message & _ & ->) | (x & Hx & ->)]];
    [now left | now left | right; now exists x].
Qed.

Lemma reachable_operands_ok (this : Calculator) :
  reachable this -> operands_ok this.
Proof.
  induction 1 as [|this cmd Hreach (Htyped & Hresult & Hprev & Hop) Hcmd].
  - repeat split; try discriminate; try (simpl; lia). now left.
  - destruct cmd as [number|operator| | |]; cbn [handle].
    + (* appendNumber *)
      cbn [accepted] in Hcmd.
      assert (Hreset : typed (currentOperand (resetDisplay this)) = true
                       /\ (occurrences "." (currentOperand (resetDisplay this))
                           <= 1)%nat
                       /\ previousOperand (resetDisplay this) = previousOperand this
                       /\ operation (resetDisplay this) = operation this).
      { unfold resetDisplay. destruct (shouldResetDisplay this).
        - cbn. repeat split. lia.
        - destruct (Htyped eq_refl). now repeat split. }
      destruct Hreset as (Ht & Hd & Hp & Ho).
      pose proof (resetDisplay_flag this) as Hflag.
      unfold operands_ok, appendNumber.
      destruct (number =? ".")%string eqn:Hnum; cbn [andb].
      * destruct (JS.includes "." (currentOperand (resetDisplay this))) eqn:Hinc;
          [|destruct (_ <=? _)%nat];
          cbn [currentOperand previousOperand operation shouldResetDisplay];
          rewrite ?Hflag, ?Hp, ?Ho;
          (split; [intros _|split; [discriminate|now split]]);
          try (now split).
        apply String.eqb_eq in Hnum. subst number.
        rewrite typed_app, Ht, occurrences_app,
          (includes_false_occurrences _ _ Hinc). now split.
      * destruct (_ <=? _)%nat;
          cbn [currentOperand previousOperand operation shouldResetDisplay];
          rewrite ?Hflag, ?Hp, ?Ho;
          (split; [intros _|split; [discriminate|now split]]);
          try (now split).
        rewrite typed_app, Ht, (isNumberKey_typed _ Hcmd), occurrences_app,
          (isNumberKey_no_dot _ Hcmd Hnum). split; [reflexivity | lia].
    + (* chooseOperation *)
      destruct (chooseOperation_shape operator this)
        as [(_ & _ & ->) | [(Hc & Hp & ->) | (Hc & Hm & ->)]]; cbn [fst].
      * exact (conj Htyped (conj Hresult (conj Hprev Hop))).
      * unfold operands_ok.
        cbn [currentOperand previousOperand operation shouldResetDisplay].
        split; [intros _; split; [reflexivity | simpl; lia]|]. split.
        -- intros Hflag. specialize (Hresult Hflag). now rewrite Hc in Hresult.
        -- split; [exact Hprev|]. split; [discriminate | contradiction].
      * unfold operands_ok.
        cbn [currentOperand previousOperand operation shouldResetDisplay].
        split; [intros _; split; [reflexivity | simpl; lia]|].
        split; [discriminate|].
        split; [|split; [discriminate | contradiction]].
        destruct (carried_cases this) as [-> | (x & Hx & ->)].
        -- destruct (shouldResetDisplay this) eqn:Hflag.
           ++ right; right. now apply Hresult.
           ++ destruct (Htyped eq_refl) as [Ht Hd].
              destruct (String.eqb_spec (currentOperand this) ".") as [->|Hnp];
                [now right; left|].
              right; right. now apply parseFloat_typed.
        -- right; right. now apply parseFloat_Number_toString_not_nan.
    + (* compute *)
      destruct (compute_outcomes this)
        as [-> | [(message & _ & ->) | (x & Hx & ->)]]; cbn [fst].
      * exact (conj Htyped (conj Hresult (conj Hprev Hop))).
      * exact (conj Htyped (conj Hresult (conj Hprev Hop))).
      * unfold operands_ok.
        cbn [currentOperand previousOperand operation shouldResetDisplay].
        split; [discriminate|]. split.
        -- intros _. now apply parseFloat_Number_toString_not_nan.
        -- split; [now left | now split].
    + (* clear *)
      repeat split; try discriminate; try (simpl; lia). now left.
    + (* delete *)
      unfold delete. destruct (shouldResetDisplay this) eqn:Hflag.
      * repeat split; try discriminate; try (simpl; lia). now left.
      * unfold operands_ok.
        cbn [currentOperand previousOperand operation shouldResetDisplay].
        destruct (Htyped eq_refl) as [Ht Hd].
        split; [intros _; split|split; [discriminate|now split]].
        -- unfold JS.slice. now apply typed_substring.
        -- etransitivity; [apply occurrences_slice_le | exact Hd].
Qed.

Lemma known_operator_cases (op : string) :
  known_operator op = true ->
  op = "+" \/ op = "-" \/ op = times_sign \/ op = division_sign \/ op = "%".
Proof.
  unfold known_operator. cbn [existsb]. rewrite orb_false_r.
  intros H.
  repeat (apply orb_prop in H as [H|H];
          [apply String.eqb_eq in H; tauto|]).
  apply String.eqb_eq in H; tauto.
Qed.

Lemma known_operator_handled (op : string) (prev current : JS.Number) :
  known_operator op = true ->
  switch_operation (Some op) prev current <> Ignored.
Proof.
  intros H.
  destruct (known_operator_cases op H) as [-> | [-> | [-> | [-> | ->]]]];
    unfold switch_operation;
    repeat match goal with
           | |- context [String.eqb ?a ?b] =>
               let v := eval vm_compute in (String.eqb a b) in
               change (String.eqb a b) with v
           end;
    cbv iota;
    try destruct (JS.strict_eq current (JS.of_Z 0)); discriminate.
Qed.

Lemma split_nonempty (c : ascii) (s : string) :
  exists (piece : string) (pieces : list string), JS.split c s = piece :: pieces.
Proof.
  induction s as [|c' s (piece & pieces & IH)]; cbn [JS.split].
  - now eexists _, _.
  - destruct (c' =? c)%char; [now eexists _, _|].
    rewrite IH. now eexists _, _.
Qed.

Lemma split_includes (c : ascii) (s : string) :
  JS.includes c s = true ->
  exists (first second : string) (pieces : list string),
    JS.split c s = first :: second :: pieces.
Proof.
  induction s as [|c' s IH]; cbn [JS.includes JS.split]; [discriminate|].
  destruct (c' =? c)%char; cbn [orb].
  - intros _. destruct (split_nonempty c s) as (piece & pieces & ->).
    now eexists _, _, _.
  - intros H. destruct (IH H) as (first & second & pieces & ->).
    now eexists _, _, _.
Qed.

Lemma group3_nonempty (s : string) : s <> "" -> JS.group3 s <> "".
Proof.
  destruct s as [|c s]; [contradiction|]. intros _. cbn [JS.group3].
  destruct (_ && _); discriminate.
Qed.

Lemma app_nonempty_r (s t : string) : t <> "" -> s ++ t <> "".
Proof. destruct s as [|c s]; cbn [append]; [tauto | discriminate]. Qed.

Lemma toLocaleString_en0_nonempty (x : JS.Number) :
  JS.toLocaleString_en0 x <> "".
Proof.
  destruct x as [s|s| |s m e]; cbn [JS.toLocaleString_en0];
    try (destruct s; discriminate); [discriminate|].
  apply app_nonempty_r, group3_nonempty.
  intros Heq. pose proof (Z_to_digits_nonempty (JS.round_half_expand m e)) as H.
  rewrite Heq in H. simpl in H. lia.
Qed.

Lemma reachable_currentOperand_parses (this : Calculator) :
  reachable this ->
  currentOperand this = "" \/ currentOperand this = "."
  \/ JS.isNaN (JS.parseFloat (currentOperand this)) = false.
Proof.
  intros Hreach.
  destruct (reachable_operands_ok this Hreach) as (Htyped & Hresult & _ & _).
  destruct (shouldResetDisplay this) eqn:Hflag.
  - right; right. now apply Hresult.
  - destruct (Htyped eq_refl) as [Ht Hd].
    destruct (String.eqb_spec (currentOperand this) "") as [?|Hne]; [now left|].
    destruct (String.eqb_spec (currentOperand this) ".") as [?|Hnp];
      [now right; left|].
    right; right. now apply parseFloat_typed.
Qed.

End Operands.

(** X8. Whatever [compute] stores parses back to a number or an infinity,
    never to NaN: either [compute] leaves the state as it was, or
    [parseFloat] of the new [currentOperand] is not NaN, so that the result
    can serve as an operand. *)
Theorem compute_result_parses (this : Calculator) :
  fst (compute this) = this
  \/ JS.isNaN (JS.parseFloat (currentOperand (fst (compute this)))) = false.
Proof.
  destruct (compute_outcomes this)
    as [-> | [(message & _ & ->) | (x & Hx & ->)]]; cbn [fst currentOperand];
    [now left | now left | right].
  now apply parseFloat_Number_toString_not_nan.
Qed.

(** X9. In every reachable state each operand is empty, a lone point, or
    parses to a number; and an operand being typed ([shouldResetDisplay]
    false) consists of digits and points only. *)
Theorem reachable_operands_parse (this : Calculator) :
  reachable this ->
  (currentOperand this = "" \/ currentOperand this = "."
   \/ JS.isNaN (JS.parseFloat (currentOperand this)) = false)
  /\ (previousOperand this = "" \/ previousOperand this = "."
      \/ JS.isNaN (JS.parseFloat (previousOperand this)) = false)
  /\ (shouldResetDisplay this = false -> typed (currentOperand this) = true).
Proof.
  intros Hreach.
  destruct (reachable_operands_ok this Hreach) as (Htyped & _ & Hprev & _).
  split; [now apply reachable_currentOperand_parses|].
  split; [exact Hprev | apply Htyped].
Qed.

Lemma reachable_operands_parse_witness :
  (currentOperand negative_tie = "" \/ currentOperand negative_tie = "."
   \/ JS.isNaN (JS.parseFloat (currentOperand negative_tie)) = false)
  /\ (previousOperand negative_tie = "" \/ previousOperand negative_tie = "."
      \/ JS.isNaN (JS.parseFloat (previousOperand negative_tie)) = false)
  /\ (shouldResetDisplay negative_tie = false ->
      typed (currentOperand negative_tie) = true).
Proof.
  apply reachable_operands_parse.
  apply run_reachable; [constructor | reflexivity].
Defined.

(** X10. Equals is never silently ignored when there is something to
    compute: in a reachable state with one of the five operators pending,
    a [currentOperand] that is neither empty nor a lone point and a
    [previousOperand] that is not a lone point, [compute] either reports an
    error, the state as it was, or stores a result and raises
    [shouldResetDisplay]. *)
Theorem compute_not_ignored (this : Calculator) (op : string) :
  reachable this ->
  operation this = Some op ->
  known_operator op = true ->
  currentOperand this <> "" ->
  currentOperand this <> "." ->
  previousOperand this <> "." ->
  (exists message : string,
     In message error_messages /\ compute this = (this, Some message))
  \/ exists x : JS.Number,
       compute this = (mkCalculator (JS.Number_toString x) "" None true, None).
Proof.
  intros Hreach Hop Hknown Hne Hnp Hpp.
  destruct (reachable_operands_ok this Hreach) as (Htyped & Hresult & Hprev & Hnone).
  assert (Hcur : JS.isNaN (JS.parseFloat (currentOperand this)) = false).
  { destruct (shouldResetDisplay this) eqn:Hflag; [now apply Hresult|].
    destruct (Htyped eq_refl). now apply parseFloat_typed. }
  assert (Hpre : JS.isNaN (JS.parseFloat (previousOperand this)) = false).
  { destruct Hprev as [Hprev | [Hprev | Hprev]]; [|contradiction|exact Hprev].
    apply Hnone in Hprev. congruence. }
  pose proof (known_operator_handled op (JS.parseFloat (previousOperand this))
                (JS.parseFloat (currentOperand this)) Hknown) as Hhandled.
  unfold compute. rewrite Hpre, Hcur, Hop. cbn [orb].
  destruct (switch_operation _ _ _) as [computation|message|] eqn:Hswitch;
    [| |contradiction].
  - destruct (JS.isFinite computation); cbn [negb].
    + right. now eexists.
    + left. eexists. split; [|reflexivity]. simpl; tauto.
  - left. exists message. split; [|reflexivity].
    eapply switch_operation_failure, Hswitch.
Qed.

Lemma compute_not_ignored_witness :
  (exists message : string,
     In message error_messages
     /\ compute negative_tie = (negative_tie, Some message))
  \/ exists x : JS.Number,
       compute negative_tie
       = (mkCalculator (JS.Number_toString x) "" None true, None).
Proof.
  apply (compute_not_ignored negative_tie "-").
  - apply run_reachable; [constructor | reflexivity].
  - reflexivity.
  - reflexivity.
  - vm_compute. discriminate.
  - vm_compute. discriminate.
  - vm_compute. discriminate.
Defined.

(** X11. A non-empty operand never shows as a blank: in every reachable
    state with [currentOperand] not empty, [getDisplayNumber] of it is not
    empty, so that [updateDisplay] falls back on "0" for the empty operand
    only. *)
Theorem display_not_blank (this : Calculator) :
  reachable this ->
  currentOperand this <> "" ->
  getDisplayNumber (currentOperand this) <> ""
  /\ snd (updateDisplay this) = getDisplayNumber (currentOperand this).
Proof.
  intros Hreach Hne.
  assert (Hshown : getDisplayNumber (currentOperand this) <> "").
  { destruct (reachable_currentOperand_parses this Hreach) as [Hcur | [Hcur | Hcur]];
      [contradiction | rewrite Hcur; discriminate |].
    unfold getDisplayNumber.
    pose proof Hne as Hne'. apply String.eqb_neq in Hne'. rewrite Hne'.
    destruct (JS.includes "." (currentOperand this)) eqn:Hinc.
    - destruct (split_includes _ _ Hinc) as (first & second & pieces & ->).
      cbn [hd nth_error].
      intros Heq. pose proof (app_point_nonempty
        (if JS.isNaN (JS.parseFloat first) then ""
         else JS.toLocaleString_en0 (JS.parseFloat first))
        (JS.slice second 0 8)) as H.
      rewrite Heq in H. discriminate.
    - rewrite split_no_separator by exact Hinc. cbn [hd nth_error].
      rewrite Hcur. apply toLocaleString_en0_nonempty. }
  split; [exact Hshown|].
  unfold updateDisplay. apply String.eqb_neq in Hshown. rewrite Hshown.
  now destruct (operation this).
Qed.

Lemma display_not_blank_witness :
  getDisplayNumber (currentOperand after_quotient) <> ""
  /\ snd (updateDisplay after_quotient)
     = getDisplayNumber (currentOperand after_quotient).
Proof.
  apply display_not_blank.
  - apply run_reachable; [constructor | reflexivity].
  - vm_compute. discriminate.
Defined.

(* ================================================================== *)
(** * The keyboard *)
(* ================================================================== *)

Section Keys.

(** The number keys, character by character. *)
Lemma isNumberKey_chars (c : ascii) (rest : string) :
  KeyboardController.isNumberKey (String c rest)
  = (JS.is_digit c && (negb (c =? "9")%char || (rest =? "")%string))
    || ((c =? ".")%char && (rest =? "")%string).
Proof.
  unfold KeyboardController.isNumberKey.
  destruct rest as [|c' rest];
    destruct c as [[] [] [] [] [] [] [] []]; reflexivity.
Qed.

Lemma isNumberKey_one_char (key : string) :
  String.length key = 1%nat ->
  KeyboardController.isNumberKey key = isNumberKey key.
Proof.
  destruct key as [|c [|c' rest]]; try discriminate. intros _.
  rewrite isNumberKey_chars. cbn [isNumberKey String.eqb].
  rewrite andb_true_r, orb_true_r, andb_true_r. reflexivity.
Qed.

Lemma isOperatorKey_cases (key : string) :
  KeyboardController.isOperatorKey key = true ->
  key = "+" \/ key = "-" \/ key = "*" \/ key = "/" \/ key = "%".
Proof.
  unfold KeyboardController.isOperatorKey. cbn [existsb]. rewrite orb_false_r.
  intros H.
  repeat (apply orb_prop in H as [H|H]; [apply String.eqb_eq in H; tauto|]).
  apply String.eqb_eq in H; tauto.
Qed.

Lemma isEqualsKey_cases (key : string) :
  KeyboardController.isEqualsKey key = true -> key = "Enter" \/ key = "=".
Proof.
  unfold KeyboardController.isEqualsKey. intros H.
  apply orb_prop in H as [H|H]; apply String.eqb_eq in H; tauto.
Qed.

Lemma toLowerCase_c (key : string) :
  (Obj.toLowerCase key =? "c")%string = true <-> key = "c" \/ key = "C".
Proof.
  split.
  - destruct key as [|c [|c' rest]]; cbn [Obj.toLowerCase String.eqb].
    + discriminate.
    + destruct c as [[] [] [] [] [] [] [] []]; cbn; intros H;
        try discriminate H; tauto.
    + destruct (Obj.lower c =? "c")%char; discriminate.
  - intros [-> | ->]; reflexivity.
Qed.

Lemma isClearKey_cases (key : string) :
  KeyboardController.isClearKey key = true <->
  key = "Escape" \/ key = "c" \/ key = "C".
Proof.
  unfold KeyboardController.isClearKey. split.
  - intros H. apply orb_prop in H as [H|H].
    + apply String.eqb_eq in H; tauto.
    + apply toLowerCase_c in H; tauto.
  - intros [-> | [-> | ->]]; reflexivity.
Qed.

Lemma isDeleteKey_cases (key : string) :
  KeyboardController.isDeleteKey key = true -> key = "Backspace" \/ key = "Delete".
Proof.
  unfold KeyboardController.isDeleteKey. intros H.
  apply orb_prop in H as [H|H]; apply String.eqb_eq in H; tauto.
Qed.

(** The key behind each command. *)
Lemma command_cases (key : string) (cmd : Command) :
  KeyboardController.command key = Some cmd ->
  (KeyboardController.isNumberKey key = true /\ cmd = NumberInput key)
  \/ In (key, cmd)
       [("+", OperatorInput "+"); ("-", OperatorInput "-");
        ("*", OperatorInput times_sign); ("/", OperatorInput division_sign);
        ("%", OperatorInput "%");
        ("Enter", EqualsInput); ("=", EqualsInput);
        ("Escape", ClearInput); ("c", ClearInput); ("C", ClearInput);
        ("Backspace", DeleteInput); ("Delete", DeleteInput)].
Proof.
  unfold KeyboardController.command.
  destruct (KeyboardController.isNumberKey key) eqn:Hnum;
    [intros [= <-]; now left|].
  intros Hcmd. right. revert Hcmd.
  destruct (KeyboardController.isOperatorKey key) eqn:Hop.
  { destruct (isOperatorKey_cases key Hop) as [-> | [-> | [-> | [-> | ->]]]];
      vm_compute; intros [= <-]; tauto. }
  destruct (KeyboardController.isEqualsKey key) eqn:Heq.
  { destruct (isEqualsKey_cases key Heq) as [-> | ->];
      intros [= <-]; simpl; tauto. }
  destruct (KeyboardController.isClearKey key) eqn:Hclear.
  { apply isClearKey_cases in Hclear as [-> | [-> | ->]];
      intros [= <-]; simpl; tauto. }
  destruct (KeyboardController.isDeleteKey key) eqn:Hdel; [|discriminate].
  destruct (isDeleteKey_cases key Hdel) as [-> | ->];
    intros [= <-]; simpl; tauto.
Qed.

Lemma command_none (key : string) :
  KeyboardController.command key = None ->
  KeyboardController.isNumberKey key = false
  /\ ~ In key ["+"; "-"; "*"; "/"; "%"; "Enter"; "="; "Escape"; "c"; "C";
               "Backspace"; "Delete"].
Proof.
  intros Hnone. split.
  - revert Hnone. unfold KeyboardController.command.
    now destruct (KeyboardController.isNumberKey key).
  - intros Hin. simpl in Hin.
    repeat (destruct Hin as [<- | Hin]; [vm_compute in Hnone; discriminate|]).
    contradiction.
Qed.

Lemma own_none (table : list (string * string)) (key : string) :
  ~ In key (map fst table) -> Obj.own table key = None.
Proof.
  induction table as [|[k v] table IH]; cbn [Obj.own map fst In]; [reflexivity|].
  intros Hin. destruct (String.eqb_spec k key) as [->|_]; [tauto|].
  apply IH. tauto.
Qed.

Lemma handleKeyPress_reachable (key : string) (this : Calculator) :
  String.length key = 1%nat \/ KeyboardController.isNumberKey key = false ->
  reachable this -> reachable (KeyboardController.handleKeyPress key this).
Proof.
  intros Hkey Hreach. unfold KeyboardController.handleKeyPress.
  destruct (KeyboardController.command key) as [cmd|] eqn:Hcmd; [|exact Hreach].
  apply reachable_handle; [exact Hreach|].
  destruct (command_cases key cmd Hcmd) as [[Hnum ->] | Hin].
  - cbn [accepted]. destruct Hkey as [Hlen | Hno]; [|congruence].
    now rewrite <- isNumberKey_one_char.
  - simpl in Hin.
    repeat (destruct Hin as [[= <- <-] | Hin]; [reflexivity|]).
    contradiction.
Qed.

End Keys.

(** X12. Which keys count as number keys.  Strings being compared
    character by character, [isNumberKey] holds for "." and for "9", for
    every string that starts with a digit from 0 to 8, and for nothing
    else; on a key of one character it holds for the ten digits and the
    point only. *)
Theorem isNumberKey_accepts :
  KeyboardController.isNumberKey "" = false
  /\ (forall (c : ascii) (rest : string),
        KeyboardController.isNumberKey (String c rest)
        = (JS.is_digit c && (negb (c =? "9")%char || (rest =? "")%string))
          || ((c =? ".")%char && (rest =? "")%string))
  /\ (forall c : ascii,
        KeyboardController.isNumberKey (String c EmptyString)
        = JS.is_digit c || (c =? ".")%char).
Proof.
  split; [reflexivity|]. split; [exact isNumberKey_chars|].
  intros c. now rewrite (isNumberKey_one_char (String c EmptyString)).
Qed.

(** X13. The key classes do not overlap, so the order of the tests in
    [handleKeyPress] plays no part: a key of a class gets the handler of
    that class.  Every operator key is mapped to a string, one of the five
    operators [compute] knows.  A key of no class changes nothing. *)
Theorem handleKeyPress_by_class (key : string) :
  (KeyboardController.isNumberKey key = true ->
   KeyboardController.command key = Some (NumberInput key))
  /\ (KeyboardController.isOperatorKey key = true ->
      exists op : string,
        KeyboardController.mapOperatorKey key = Obj.Str op
        /\ known_operator op = true
        /\ KeyboardController.command key = Some (OperatorInput op)
        /\ forall prev current : JS.Number,
             switch_operation (Some op) prev current <> Ignored)
  /\ (KeyboardController.isEqualsKey key = true ->
      KeyboardController.command key = Some EqualsInput)
  /\ (KeyboardController.isClearKey key = true ->
      KeyboardController.command key = Some ClearInput)
  /\ (KeyboardController.isDeleteKey key = true ->
      KeyboardController.command key = Some DeleteInput)
  /\ (KeyboardController.isNumberKey key = false ->
      KeyboardController.isOperatorKey key = false ->
      KeyboardController.isEqualsKey key = false ->
      KeyboardController.isClearKey key = false ->
      KeyboardController.isDeleteKey key = false ->
      forall this : Calculator,
        KeyboardController.handleKeyPress key this = this).
Proof.
  split; [|split; [|split; [|split; [|split]]]].
  - intros H. unfold KeyboardController.command. now rewrite H.
  - intros H.
    destruct (isOperatorKey_cases key H) as [-> | [-> | [-> | [-> | ->]]]];
      eexists; (split; [reflexivity|]); (split; [reflexivity|]);
      (split; [reflexivity|]); intros prev current;
      now apply known_operator_handled.
  - intros H. destruct (isEqualsKey_cases key H) as [-> | ->]; reflexivity.
  - intros H. apply isClearKey_cases in H as [-> | [-> | ->]]; reflexivity.
  - intros H. destruct (isDeleteKey_cases key H) as [-> | ->]; reflexivity.
  - intros H1 H2 H3 H4 H5 this.
    unfold KeyboardController.handleKeyPress, KeyboardController.command.
    now rewrite H1, H2, H3, H4, H5.
Qed.

Lemma handleKeyPress_by_class_witness :
  (exists op : string,
     KeyboardController.mapOperatorKey "*" = Obj.Str op
     /\ known_operator op = true
     /\ KeyboardController.command "*" = Some (OperatorInput op)
     /\ forall prev current : JS.Number,
          switch_operation (Some op) prev current <> Ignored)
  /\ KeyboardController.command "C" = Some ClearInput
  /\ KeyboardController.handleKeyPress "F5" after_sum = after_sum.
Proof.
  split; [|split].
  - apply (proj1 (proj2 (handleKeyPress_by_class "*"))). reflexivity.
  - apply (proj1 (proj2 (proj2 (proj2 (handleKeyPress_by_class "C"))))).
    reflexivity.
  - apply (proj2 (proj2 (proj2 (proj2 (proj2 (handleKeyPress_by_class "F5"))))));
      reflexivity.
Defined.

(** X14. What the keyboard can reach, the buttons can: after any sequence
    of key presses, each key one character long or not a number key, the
    calculator is in a reachable state. *)
Theorem keyboard_reachable (keys : list string) :
  Forall (fun key => String.length key = 1%nat
                     \/ KeyboardController.isNumberKey key = false) keys ->
  reachable (KeyboardController.handleKeyPresses keys initial).
Proof.
  unfold KeyboardController.handleKeyPresses.
  generalize reachable_initial. generalize initial.
  induction keys as [|key keys IH]; intros this Hreach Hkeys; [exact Hreach|].
  inversion Hkeys as [|? ? Hkey Hrest]; subst.
  cbn [fold_left]. apply IH; [|exact Hrest].
  now apply handleKeyPress_reachable.
Qed.

Lemma keyboard_reachable_witness :
  reachable
    (KeyboardController.handleKeyPresses ["7"; "*"; "Shift"; "6"; "Enter"] initial).
Proof.
  apply keyboard_reachable.
  repeat (constructor; [first [left; reflexivity | right; reflexivity]|]).
  constructor.
Defined.

(** X15. The feedback follows the command: for every key [handleKeyPress]
    acts on, [addKeyboardFeedback] looks for the button that carries the
    text of that very command (the key itself for a number, the mapped
    operator, "=", "AC" or the erase sign), and for every other key it
    animates no button, whatever the buttons are. *)
Theorem feedback_matches_command (key : string) :
  (forall cmd : Command,
     KeyboardController.command key = Some cmd ->
     UIController.feedbackContent key = Some (Obj.Str (button_text cmd)))
  /\ (KeyboardController.command key = None ->
      forall buttons : list string,
        UIController.addKeyboardFeedback buttons key = None).
Proof.
  split.
  - intros cmd Hcmd.
    destruct (command_cases key cmd Hcmd) as [[Hnum ->] | Hin].
    + unfold UIController.feedbackContent.
      unfold KeyboardController.isNumberKey in Hnum. now rewrite Hnum.
    + simpl in Hin.
      repeat (destruct Hin as [[= <- <-] | Hin]; [reflexivity|]).
      contradiction.
  - intros Hnone buttons. destruct (command_none key Hnone) as [Hnum Hnot].
    unfold UIController.addKeyboardFeedback, UIController.feedbackContent.
    unfold KeyboardController.isNumberKey in Hnum. rewrite Hnum.
    unfold Obj.get. rewrite own_none.
    + destruct (existsb _ _); reflexivity.
    + intros Hin. apply Hnot. simpl in Hin. simpl. tauto.
Qed.

Lemma feedback_matches_command_witness :
  UIController.feedbackContent "/" = Some (Obj.Str (button_text (OperatorInput division_sign)))
  /\ UIController.addKeyboardFeedback ["7"; "AC"; "="] "toString" = None.
Proof.
  split.
  - apply (proj1 (feedback_matches_command "/")). reflexivity.
  - apply (proj2 (feedback_matches_command "toString")). reflexivity.
Defined.


(* ================================================================== *)
(** * More of the display and of the rounding *)
(* ================================================================== *)

(** X16. An operand without integer part keeps it empty on the display:
    for a fraction part [f] without a further point, [getDisplayNumber] of
    "." followed by [f] is a point and the first eight characters of [f];
    no zero is put in front. *)
Theorem getDisplayNumber_no_integer_part (f : string) :
  JS.includes "." f = false ->
  getDisplayNumber ("." ++ f) = "." ++ substring 0 8 f.
Proof.
  intros Hf. unfold getDisplayNumber.
  change ("." ++ f) with ("" ++ String "." f).
  rewrite split_at_first by reflexivity.
  rewrite split_no_separator by exact Hf.
  cbn [append String.eqb hd nth_error].
  change (JS.isNaN (JS.parseFloat "")) with true. cbv iota.
  now rewrite slice_0_8.
Qed.

Lemma getDisplayNumber_no_integer_part_witness :
  getDisplayNumber ("." ++ "5") = "." ++ substring 0 8 "5".
Proof. apply (getDisplayNumber_no_integer_part "5"). reflexivity. Defined.

(** X17. The guard against results too large comes before the rounding
    and does not see it overflow: when the result is finite but its
    product with [10^8] is not, [compute] reports nothing and stores
    "Infinity" (or "-Infinity") as the operand. *)
Theorem compute_stores_Infinity
    (this : Calculator) (computation : JS.Number) (s : bool) :
  JS.isNaN (JS.parseFloat (previousOperand this)) = false ->
  JS.isNaN (JS.parseFloat (currentOperand this)) = false ->
  switch_operation (operation this)
    (JS.parseFloat (previousOperand this))
    (JS.parseFloat (currentOperand this)) = Value computation ->
  JS.isFinite computation = true ->
  JS.mul (JS.add computation JS.EPSILON) (JS.of_Z 100000000) = S754_infinity s ->
  compute this
  = (mkCalculator (if s then "-Infinity" else "Infinity") "" None true, None).
Proof.
  intros Hprev Hcur Hswitch Hfinite Hscaled. unfold compute.
  cbv zeta. rewrite Hprev, Hcur. cbn [orb].
  rewrite Hswitch, Hfinite. cbn [negb].
  unfold round8. rewrite Hscaled. destruct s; reflexivity.
Qed.

Lemma compute_stores_Infinity_witness :
  compute (mkCalculator "10" "1e+301" (Some times_sign) false)
  = (mkCalculator "Infinity" "" None true, None).
Proof.
  apply (compute_stores_Infinity
           (mkCalculator "10" "1e+301" (Some times_sign) false)
           (JS.mul (JS.parseFloat "1e+301") (JS.parseFloat "10")) false);
    vm_compute; reflexivity.
Defined.

(** X18. In every reachable state the line of the previous operand, as
    [updateDisplay] writes it, is empty exactly when [previousOperand] is;
    otherwise it is the formatted operand, a space and the operator. *)
Theorem previous_line_shows_pending (this : Calculator) :
  reachable this ->
  (fst (updateDisplay this) = "" <-> previousOperand this = "")
  /\ (forall op : string,
        operation this = Some op ->
        fst (updateDisplay this)
        = getDisplayNumber (previousOperand this) ++ " " ++ op).
Proof.
  intros Hreach.
  destruct (reachable_operands_ok this Hreach) as (_ & _ & _ & Hnone).
  unfold updateDisplay. destruct (operation this) as [op|] eqn:Hop; cbn [fst].
  - split; [|now intros ? [= <-]]. split.
    + intros Heq. exfalso. revert Heq. apply app_nonempty_r. discriminate.
    + intros Hprev. apply Hnone in Hprev. discriminate.
  - split; [|discriminate]. split; [intros _; now apply Hnone | reflexivity].
Qed.

Lemma previous_line_shows_pending_witness :
  (fst (updateDisplay negative_tie) = "" <-> previousOperand negative_tie = "")
  /\ (forall op : string,
        operation negative_tie = Some op ->
        fst (updateDisplay negative_tie)
        = getDisplayNumber (previousOperand negative_tie) ++ " " ++ op).
Proof.
  apply previous_line_shows_pending.
  apply run_reachable; [constructor | reflexivity].
Defined.
